(** * textwolf XML printer (textwolf/xmlprinter.hpp)

    A shallow embedding of the character-encoding dependent XML printer:
    [XMLPrinterBase::parseEncoding], the printing object
    [XMLPrinterObject::This] with its four operations, and
    [XMLPrinter::createPrinter]. *)

From Equations Require Import Equations.
From Equations.Prop Require Import Logic.
From Stdlib Require Import Ascii String List NArith ZArith Lia Bool Arith.
Import ListNotations.

Set Implicit Arguments.

(** ** Characters, strings and buffers *)

(** [textwolf::UChar]: an unsigned 32 bit unicode character. *)
Definition UChar := N.

(** A [(const char* src, std::size_t srcsize)] pair, a [std::string] and the
    [BufferType] back insertion sequence are all sequences of [char]. *)
Definition CString := list ascii.
Definition Buffer := list ascii.

Definition lit (s : string) : CString := list_ascii_of_string s.

Definition NUL : ascii := ascii_of_nat 0.
Definition BS : ascii := ascii_of_nat 8.
Definition TAB : ascii := ascii_of_nat 9.
Definition LF : ascii := ascii_of_nat 10.
Definition CR : ascii := ascii_of_nat 13.
Definition DQUOTE : ascii := ascii_of_nat 34.
Definition APOS : ascii := ascii_of_nat 39.

(** [(textwolf::UChar)(unsigned char)ch] *)
Definition uchar_of_char (c : ascii) : UChar := N_of_ascii c.

(** [(char)ch] for [ch < 128] *)
Definition char_of_uchar (ch : UChar) : ascii := ascii_of_N ch.

(** A C array [T a[n] = {init...}]: missing initialisers are zero. *)
Definition c_array (A : Type) (zero : A) (n : nat) (init : list A) : list A :=
  init ++ repeat zero (n - length init).

(** [memchr( s, c, n)] as the offset of the first occurrence among the
    first [n] elements of [s]. *)
Fixpoint memchr (s : list ascii) (c : ascii) (n : nat) : option nat :=
  match n, s with
  | S n', x :: s' =>
      if Ascii.eqb x c then Some O else option_map S (memchr s' c n')
  | _, _ => None
  end.

(** ** Character set encodings and the text scanner *)

(** Modelled from the spec: the character set encoding structures
    (textwolf/charset.hpp) and [TextScanner<CStringIterator,CharSet>]
    (textwolf/textscanner.hpp, textwolf/cstringiterator.hpp), which are not
    among the sources. A scanner over a [CStringIterator] is represented by
    the bytes it has not consumed yet; [value] is what [chr()] returns there
    (the unicode character at the current position, 0 when the source is
    exhausted), [skip] is [operator++] (consumes the current character) and
    [encode] gives the bytes [print] pushes back to the buffer. *)
Record CharSet : Type := {
  value : CString -> UChar;
  skip : CString -> CString;
  encode : UChar -> list ascii;
  value_end : value [] = 0%N;
  skip_consumes : forall c s, (length (skip (c :: s)) <= length s)%nat
}.

(** [CharSet::print( chr, buf)] *)
Definition print (cs : CharSet) (chr : UChar) (buf : Buffer) : Buffer :=
  buf ++ encode cs chr.

Module charset.

(** Modelled from the spec: the ISO-8859-1 encoding ([charset::IsoLatin1]):
    one byte per character whose unicode value is the byte; a character that
    has no representation is printed as [?]. On strings of ASCII characters
    it scans like [charset::UTF8], the [AppCharset] of every printer that
    [createPrinter] makes. *)
Program Definition IsoLatin1 : CharSet := {|
  value := fun ts => match ts with [] => 0%N | c :: _ => N_of_ascii c end;
  skip := fun ts => tl ts;
  encode := fun ch => if (ch <? 256)%N then [ascii_of_N ch] else lit "?"
|}.

End charset.

(** The tag name stack of the open tags (textwolf/xmltagstack.hpp). *)
Module TagStack.

(** Modelled from the spec: [TagStack], which is not among the sources: the
    LIFO of the names (byte sequences) of the currently open elements. *)
Definition t := list CString.

Definition empty : t := [].

(** Modelled from the spec: [push( name, size)] appends a name. *)
Definition push (src : CString) (st : t) : t := src :: st.

(** Modelled from the spec: [top() -> (bytes, length)] returns the current
    top, in the source through its reference parameters [element] and
    [elementsize]; on an empty stack there is none to return ([None]) and
    the parameters keep what they held. Neither the sources nor the spec say
    what the boolean result of [top] means: [success] is the value it has
    when there is a top, and it has the other value on an empty stack. *)
Definition top (success : bool) (st : t) : bool * option CString :=
  match st with
  | [] => (negb success, None)
  | element :: _ => (success, Some element)
  end.

(** Modelled from the spec: [pop()] removes the top; an empty stack has
    none to remove. *)
Definition pop (st : t) : t := tl st.

End TagStack.

(** Modelled from the spec: the [XMLAttributes] policy
    (textwolf/xmlattributes.hpp, not among the sources), of which the printer
    uses [getEncoding()], the encoding as the caller declared it. *)
Record XMLAttributes : Type := { getEncoding : CString }.

(** ** XMLPrinterBase *)

Module XMLPrinterBase.

(** The template instantiations of [XMLPrinterObject] that
    [XMLPrinter::createPrinter] chooses from, named by their [IOCharset]. *)
Inductive Codec : Type :=
| IsoLatin1 | UTF8 | UTF16BE | UTF16LE | UCS2BE | UCS2LE | UCS4BE | UCS4LE.

(** A method table entry is a null pointer ([None]) or the address of a
    static member of one instantiation of [XMLPrinterObject]. *)
Record MethodTable : Type := {
  m_printOpenTag : option Codec;
  m_printCloseTag : option Codec;
  m_printAttribute : option Codec;
  m_printValue : option Codec;
  m_copy : option Codec;
  m_del : option Codec
}.

(** [MethodTable()] *)
Definition MethodTable_init : MethodTable :=
  {| m_printOpenTag := None; m_printCloseTag := None; m_printAttribute := None;
     m_printValue := None; m_copy := None; m_del := None |}.

Section ParseEncoding.

(** Whether plain [char] is a signed type is left to the implementation. *)
Variable char_is_signed : bool.

(** Integral promotion of a [char]. *)
Definition int_of_char (c : ascii) : Z :=
  let n := Z.of_N (N_of_ascii c) in
  if char_is_signed && (128 <=? n)%Z then (n - 256)%Z else n.

(** Conversion of an [int] back to [char]. *)
Definition char_of_int (z : Z) : ascii := ascii_of_N (Z.to_N (z mod 256)).

(** [::tolower] in the "C" locale. *)
Definition tolower (c : Z) : Z :=
  if (65 <=? c)%Z && (c <=? 90)%Z then (c + 32)%Z else c.

Fixpoint parseEncoding_loop (dest : CString) (src : CString) : CString :=
  match src with
  | [] => dest
  | cc :: rest =>
      if (int_of_char cc <=? int_of_char " ")%Z then parseEncoding_loop dest rest
      else if Ascii.eqb cc "-" then parseEncoding_loop dest rest
      else if Ascii.eqb cc " " then parseEncoding_loop dest rest
      else parseEncoding_loop (dest ++ [char_of_int (tolower (int_of_char cc))]) rest
  end.

(** [parseEncoding( dest, src)]: the new value of [dest]. *)
Definition parseEncoding (src : CString) : CString :=
  parseEncoding_loop [] src.

End ParseEncoding.

End XMLPrinterBase.

(** ** XMLPrinterObject *)

Module XMLPrinterObject.

Inductive State : Type := Init | Content | TagAttribute | TagElement.

Definition State_eqb (a b : State) : bool :=
  match a, b with
  | Init, Init | Content, Content
  | TagAttribute, TagAttribute | TagElement, TagElement => true
  | _, _ => false
  end.

Record This : Type := {
  m_state : State;
  m_buf : Buffer;
  m_tagstack : TagStack.t;
  m_attributes : XMLAttributes
}.

(** [This( const XMLAttributes& a)] *)
Definition This_new (a : XMLAttributes) : This :=
  {| m_state := Init; m_buf := []; m_tagstack := TagStack.empty;
     m_attributes := a |}.

Definition set_state (this : This) (s : State) : This :=
  {| m_state := s; m_buf := m_buf this; m_tagstack := m_tagstack this;
     m_attributes := m_attributes this |}.

Definition set_tagstack (this : This) (st : TagStack.t) : This :=
  {| m_state := m_state this; m_buf := m_buf this; m_tagstack := st;
     m_attributes := m_attributes this |}.

Section This.

Variables IOCharset AppCharset : CharSet.

(** [printToBuffer( const char* src, std::size_t srcsize, BufferType& buf)] *)
Equations? printToBuffer (src : CString) (buf : Buffer) : Buffer
  by wf (length src) lt :=
  printToBuffer src buf with inspect (N.eqb (value AppCharset src) 0) := {
    | exist _ true _ => buf
    | exist _ false more =>
        printToBuffer (skip AppCharset src)
                      (print IOCharset (value AppCharset src) buf) }.
Proof.
  destruct src as [|c s].
  - rewrite value_end in more. discriminate.
  - pose proof (skip_consumes AppCharset c s). simpl. lia.
Qed.

(** [while (tt[ii]) IOCharset::print( tt[ii++], buf);] over the characters
    of the C string [str] (the source's [tt]); the end of the list is its
    terminating zero. *)
Fixpoint printCStr (str : CString) (buf : Buffer) : Buffer :=
  match str with
  | [] => buf
  | c :: str' =>
      if Ascii.eqb c NUL then buf
      else printCStr str' (print IOCharset (uchar_of_char c) buf)
  end.

(** [printEsc]: [estr] holds C strings, a zero initialised entry is a null
    pointer ([None]). Indexing [estr] with the offset [memchr] found is only
    defined on an entry that points to a string. *)
Definition printEsc (ch : ascii) (buf : Buffer) (nof_echr : nat)
    (echr : list ascii) (estr : list (option CString)) : Buffer :=
  match memchr echr ch nof_echr with
  | Some ofs =>
      match nth ofs estr None with
      | Some str => printCStr str buf
      | None => buf
      end
  | None => print IOCharset (uchar_of_char ch) buf
  end.

Equations? printToBufferSubstChr (src : CString) (buf : Buffer)
    (nof_echr : nat) (echr : list ascii) (estr : list (option CString))
    : Buffer by wf (length src) lt :=
  printToBufferSubstChr src buf nof_echr echr estr
    with inspect (N.eqb (value AppCharset src) 0) := {
    | exist _ true _ => buf
    | exist _ false more =>
        printToBufferSubstChr (skip AppCharset src)
          (if (value AppCharset src <? 128)%N
           then printEsc (char_of_uchar (value AppCharset src)) buf
                         nof_echr echr estr
           else print IOCharset (value AppCharset src) buf)
          nof_echr echr estr }.
Proof.
  destruct src as [|c s].
  - rewrite value_end in more. discriminate.
  - pose proof (skip_consumes AppCharset c s). simpl. lia.
Qed.

Definition attr_nof_echr : nat := 12.

Definition attr_estr : list (option CString) :=
  c_array None attr_nof_echr
    (map Some [lit "&lt;"; lit "&gt;"; lit "&apos;"; lit "&quot;"; lit "&amp;";
               lit "&#0;"; lit "&#8;"; lit "&#9;"; lit "&#10;"; lit "&#13;"]).

(** The string literal brings its terminating zero along. *)
Definition attr_echr : list ascii :=
  c_array NUL (attr_nof_echr + 1)
    (["<"; ">"; APOS; DQUOTE; "&"; NUL; BS; TAB; LF; CR]%char ++ [NUL]).

Definition printToBufferAttributeValue (src : CString) (buf : Buffer) : Buffer :=
  let buf := print IOCharset (uchar_of_char DQUOTE) buf in
  let buf := printToBufferSubstChr src buf attr_nof_echr attr_echr attr_estr in
  print IOCharset (uchar_of_char DQUOTE) buf.

Definition content_nof_echr : nat := 6.

Definition content_estr : list (option CString) :=
  c_array None content_nof_echr
    (map Some [lit "&lt;"; lit "&gt;"; lit "&amp;"; lit "&#0;"; lit "&#8;"]).

Definition content_echr : list ascii :=
  c_array NUL (content_nof_echr + 1)
    (["<"; ">"; "&"; NUL; BS]%char ++ [NUL]).

Definition printToBufferContent (src : CString) (buf : Buffer) : Buffer :=
  printToBufferSubstChr src buf content_nof_echr content_echr content_estr.

(** [printToBuffer( char ch, BufferType& buf)] *)
Definition printToBufferChar (ch : ascii) (buf : Buffer) : Buffer :=
  print IOCharset (uchar_of_char ch) buf.

(** The two string literals of [printHeader] with the sizes passed along. *)
Definition header_head : CString :=
  firstn 30 (lit "<?xml version=" ++ [DQUOTE] ++ lit "1.0" ++ [DQUOTE]
             ++ lit " encoding=" ++ [DQUOTE]).

Definition header_tail : CString :=
  firstn 21 ([DQUOTE] ++ lit " standalone=" ++ [DQUOTE] ++ lit "yes"
             ++ [DQUOTE] ++ lit "?>" ++ [LF]).

Definition printHeader (this : This) (buf : Buffer) : This * Buffer :=
  let enc := getEncoding (m_attributes this) in
  let buf := printToBuffer header_head buf in
  let buf := printToBuffer enc buf in
  let buf := printToBuffer header_tail buf in
  (set_state this Content, buf).

Definition exitTagContext (this : This) (buf : Buffer) : This * Buffer :=
  if negb (State_eqb (m_state this) Content) then
    let '(this, buf) :=
      if State_eqb (m_state this) Init then printHeader this buf
      else (this, buf) in
    let buf := printToBufferChar ">" buf in
    (set_state this Content, buf)
  else (this, buf).

Definition printOpenTag (this : This) (src : CString) (buf : Buffer)
    : bool * This * Buffer :=
  let '(this, buf) := exitTagContext this buf in
  let buf := printToBufferChar "<" buf in
  let buf := printToBuffer src buf in
  let this := set_tagstack this (TagStack.push src (m_tagstack this)) in
  let this := set_state this TagElement in
  (true, this, buf).

Definition printAttribute (this : This) (src : CString) (buf : Buffer)
    : bool * This * Buffer :=
  if State_eqb (m_state this) TagElement then
    let buf := printToBufferChar " " buf in
    let buf := printToBuffer src buf in
    let buf := printToBufferChar "=" buf in
    let this := set_state this TagAttribute in
    (true, this, buf)
  else (false, this, buf).

Definition printValue (this : This) (src : CString) (buf : Buffer)
    : bool * This * Buffer :=
  if State_eqb (m_state this) TagAttribute then
    let buf := printToBufferChar " " buf in
    let buf := printToBufferAttributeValue src buf in
    let this := set_state this TagElement in
    (true, this, buf)
  else
    let '(this, buf) := exitTagContext this buf in
    let buf := printToBufferContent src buf in
    (false, this, buf).

(** The value of the boolean result of [TagStack::top] when there is a
    top. *)
Variable top_success : bool.

(** [printCloseTag]. Its locals [cltag] and [cltagsize] are not
    initialised; [cltag0] stands for the bytes that their indeterminate
    values denote, which is what they still hold after a [top] that had
    nothing to return. *)
Definition printCloseTag (cltag0 : CString) (this : This) (buf : Buffer)
    : bool * This * Buffer :=
  let '(top_rt, element) := TagStack.top top_success (m_tagstack this) in
  let cltag := match element with Some bytes => bytes | None => cltag0 end in
  if top_rt || Nat.eqb (length cltag) 0 then (false, this, buf)
  else if State_eqb (m_state this) TagElement then
    let buf := printToBufferChar "/" buf in
    let buf := printToBufferChar ">" buf in
    let this := set_state this Content in
    let this := set_tagstack this (TagStack.pop (m_tagstack this)) in
    (true, this, buf)
  else if negb (State_eqb (m_state this) Content) then (false, this, buf)
  else
    let buf := printToBufferChar "<" buf in
    let buf := printToBufferChar "/" buf in
    let buf := printToBuffer cltag buf in
    let buf := printToBufferChar ">" buf in
    let this := set_tagstack this (TagStack.pop (m_tagstack this)) in
    (true, this, buf).

End This.

(** [create( mt, a)] of the instantiation [codec]: fills the method table
    with its static members and returns [createObj( a)]. *)
Definition create (codec : XMLPrinterBase.Codec)
    (mt : XMLPrinterBase.MethodTable) (a : XMLAttributes)
    : XMLPrinterBase.MethodTable * This :=
  ({| XMLPrinterBase.m_printOpenTag := Some codec;
      XMLPrinterBase.m_printCloseTag := Some codec;
      XMLPrinterBase.m_printAttribute := Some codec;
      XMLPrinterBase.m_printValue := Some codec;
      XMLPrinterBase.m_copy := Some codec;
      XMLPrinterBase.m_del := Some codec |},
   This_new a).

End XMLPrinterObject.

(** ** XMLPrinter *)

(** [std::string::c_str()]: the characters followed by a terminating zero;
    a string literal is laid out the same way. *)
Definition c_str (s : CString) : list ascii := s ++ [NUL].

(** [std::memcmp( a, b, n) == 0]. The objects are compared element by
    element up to the first difference; running off the end of one of them
    before that has no defined result ([None]). *)
Fixpoint memcmp_eq (a b : list ascii) (n : nat) : option bool :=
  match n with
  | O => Some true
  | S n' =>
      match a, b with
      | x :: a', y :: b' =>
          if Ascii.eqb x y then memcmp_eq a' b' n' else Some false
      | _, _ => None
      end
  end.

(** [enc == "literal"] on a [std::string]. *)
Fixpoint CString_eqb (a b : CString) : bool :=
  match a, b with
  | [], [] => true
  | x :: a', y :: b' => Ascii.eqb x y && CString_eqb a' b'
  | _, _ => false
  end.

Module XMLPrinter.

Import XMLPrinterBase.

Record XMLPrinter : Type := {
  m_mt : MethodTable;
  m_obj : option XMLPrinterObject.This;
  m_attributes : XMLAttributes
}.

(** [XMLPrinter( const XMLAttributes& a)] *)
Definition XMLPrinter_new (a : XMLAttributes) : XMLPrinter :=
  {| m_mt := MethodTable_init; m_obj := None; m_attributes := a |}.

(** How control leaves a function declared to return [bool]: through a
    [return] statement, or by flowing off its closing brace. *)
Inductive Exit : Type :=
| Return (rt : bool)
| EndOfFunction.

Section CreatePrinter.

Variable char_is_signed : bool.

(** [m_obj = XMLPrinterObject<..IOCharset..>::create( m_mt, m_attributes);]
    after which control reaches the end of [createPrinter]. *)
Definition install (codec : Codec) (this : XMLPrinter) : Exit * XMLPrinter :=
  let '(mt, obj) :=
    XMLPrinterObject.create codec (m_mt this) (m_attributes this) in
  (EndOfFunction,
   {| m_mt := mt; m_obj := Some obj; m_attributes := m_attributes this |}).

(** [enc.size() >= n && std::memcmp( enc.c_str(), "name", enc.size()) == 0] *)
Definition prefix_test (n : nat) (enc name : CString) : option bool :=
  if (n <=? length enc)%nat
  then memcmp_eq (c_str enc) (c_str name) (length enc)
  else Some false.

(** [createPrinter()]; [None] stands for a [memcmp] without a defined
    result. *)
Definition createPrinter (this : XMLPrinter) : option (Exit * XMLPrinter) :=
  let enc := parseEncoding char_is_signed (getEncoding (m_attributes this)) in
  let this :=
    match m_obj this with
    | Some _ =>
        {| m_mt := m_mt this; m_obj := None;
           m_attributes := m_attributes this |}
    | None => this
    end in
  match prefix_test 8 enc (lit "isolatin") with
  | None => None
  | Some true => Some (install IsoLatin1 this)
  | Some false =>
      match prefix_test 7 enc (lit "iso8859") with
      | None => None
      | Some true => Some (install IsoLatin1 this)
      | Some false =>
          Some
            (if Nat.eqb (length enc) 0 || CString_eqb enc (lit "utf8")
             then install UTF8 this
             else if CString_eqb enc (lit "utf16")
                     || CString_eqb enc (lit "utf16be")
             then install UTF16BE this
             else if CString_eqb enc (lit "utf16le")
             then install UTF16LE this
             else if CString_eqb enc (lit "ucs2")
                     || CString_eqb enc (lit "ucs2be")
             then install UCS2BE this
             else if CString_eqb enc (lit "ucs2le")
             then install UCS2LE this
             else if CString_eqb enc (lit "ucs4")
                     || CString_eqb enc (lit "ucs4be")
             then install UCS4BE this
             else if CString_eqb enc (lit "ucs4le")
             then install UCS4LE this
             else (Return false, this))
      end
  end.

End CreatePrinter.

Section PublicOperations.

Variable char_is_signed : bool.

(** The [IOCharset] of each instantiation, and [charset::UTF8], the
    [AppCharset] of all of them. *)
Variable io_charset : Codec -> CharSet.
Variable AppCharset : CharSet.

(** The value of the boolean result of [TagStack::top] when there is a top,
    and the bytes that the uninitialised locals of
    [XMLPrinterObject::This::printCloseTag] denote. *)
Variable top_success : bool.
Variable cltag0 : CString.

(** [if (!m_obj && !createPrinter()) return false;] either leaves the
    operation with false, or lets it go on to the call through the method
    table, or has no defined result: a [createPrinter] that flows off its
    end has no value to negate. *)
Inductive Guard : Type :=
| Leave (this : XMLPrinter)
| Go (this : XMLPrinter)
| NoResult.

Definition guard (this : XMLPrinter) : Guard :=
  match m_obj this with
  | Some _ => Go this
  | None =>
      match createPrinter char_is_signed this with
      | Some (Return rt, this) => if negb rt then Leave this else Go this
      | Some (EndOfFunction, _) => NoResult
      | None => NoResult
      end
  end.

(** [return m_mt.m_print...( m_obj, ...);]: the call of a static member of
    [XMLPrinterObject] through the method table, which casts [m_obj] to its
    [This] and calls the operation on it. A null entry and a null [m_obj]
    leave the call without a defined result. *)
Definition call (entry : option Codec) (this : XMLPrinter)
    (method : CharSet -> CharSet -> XMLPrinterObject.This ->
              bool * XMLPrinterObject.This * Buffer)
    : option (bool * XMLPrinter * Buffer) :=
  match entry, m_obj this with
  | Some codec, Some obj =>
      let '(rt, obj, buf) := method (io_charset codec) AppCharset obj in
      Some (rt,
            {| m_mt := m_mt this; m_obj := Some obj;
               m_attributes := m_attributes this |},
            buf)
  | _, _ => None
  end.

Definition printOpenTag (this : XMLPrinter) (src : CString) (buf : Buffer)
    : option (bool * XMLPrinter * Buffer) :=
  match guard this with
  | Leave this => Some (false, this, buf)
  | Go this =>
      call (m_printOpenTag (m_mt this)) this
        (fun io app obj => XMLPrinterObject.printOpenTag io app obj src buf)
  | NoResult => None
  end.

(** [printCloseTag] takes [src] and [srcsize] and does not use them. *)
Definition printCloseTag (this : XMLPrinter) (src : CString) (buf : Buffer)
    : option (bool * XMLPrinter * Buffer) :=
  match guard this with
  | Leave this => Some (false, this, buf)
  | Go this =>
      call (m_printCloseTag (m_mt this)) this
        (fun io app obj =>
           XMLPrinterObject.printCloseTag io app top_success cltag0 obj buf)
  | NoResult => None
  end.

Definition printAttribute (this : XMLPrinter) (src : CString) (buf : Buffer)
    : option (bool * XMLPrinter * Buffer) :=
  match guard this with
  | Leave this => Some (false, this, buf)
  | Go this =>
      call (m_printAttribute (m_mt this)) this
        (fun io app obj => XMLPrinterObject.printAttribute io app obj src buf)
  | NoResult => None
  end.

Definition printValue (this : XMLPrinter) (src : CString) (buf : Buffer)
    : option (bool * XMLPrinter * Buffer) :=
  match guard this with
  | Leave this => Some (false, this, buf)
  | Go this =>
      call (m_printValue (m_mt this)) this
        (fun io app obj => XMLPrinterObject.printValue io app obj src buf)
  | NoResult => None
  end.

End PublicOperations.

End XMLPrinter.

Import XMLPrinterObject.

(** ** Vocabulary of the statements *)

Section Emitted.

Variables IOCharset AppCharset : CharSet.

(** The bytes by which a single [char] shows up in the output. *)
Definition emit (c : ascii) : list ascii := encode IOCharset (uchar_of_char c).

(** The bytes by which a string of the application shows up in the output:
    what [printToBuffer] appends for it. *)
Definition transcode (src : CString) : list ascii :=
  printToBuffer IOCharset AppCharset src [].

(** A string of characters of the tables, as [printEsc] prints it. *)
Definition emit_string (str : CString) : list ascii := flat_map emit str.

(** The bytes of a value under attribute-value escaping and under content
    escaping: what the substitution loop appends with the respective
    tables. *)
Definition attribute_escaped (src : CString) : list ascii :=
  printToBufferSubstChr IOCharset AppCharset src []
    attr_nof_echr attr_echr attr_estr.

Definition content_escaped (src : CString) : list ascii :=
  printToBufferSubstChr IOCharset AppCharset src []
    content_nof_echr content_echr content_estr.

(** The XML prolog for the declared encoding [enc]. *)
Definition prolog (enc : CString) : list ascii :=
  transcode (lit "<?xml version=" ++ [DQUOTE] ++ lit "1.0" ++ [DQUOTE]
             ++ lit " encoding=" ++ [DQUOTE])
  ++ transcode enc
  ++ transcode ([DQUOTE] ++ lit " standalone=" ++ [DQUOTE] ++ lit "yes"
                ++ [DQUOTE] ++ lit "?>" ++ [LF]).

End Emitted.

(** The configurations a printing object gets into from its construction by
    calls of its four operations, each with a buffer of the caller's. *)
Section Reachable.

Variables IOCharset AppCharset : CharSet.
Variable top_success : bool.

Definition this_of (r : bool * This * Buffer) : This := snd (fst r).
Definition rt_of (r : bool * This * Buffer) : bool := fst (fst r).
Definition buf_of (r : bool * This * Buffer) : Buffer := snd r.

Inductive reachable : This -> Prop :=
| reach_new (a : XMLAttributes) : reachable (This_new a)
| reach_printOpenTag this src buf :
    reachable this ->
    reachable (this_of (printOpenTag IOCharset AppCharset this src buf))
| reach_printAttribute this src buf :
    reachable this ->
    reachable (this_of (printAttribute IOCharset AppCharset this src buf))
| reach_printValue this src buf :
    reachable this ->
    reachable (this_of (printValue IOCharset AppCharset this src buf))
| reach_printCloseTag cltag0 this buf :
    reachable this ->
    reachable
      (this_of (printCloseTag IOCharset AppCharset top_success cltag0 this buf)).

End Reachable.

(** The tag stack holds a name whenever a tag is being written. *)
Definition tag_open_has_name (this : This) : Prop :=
  m_state this = TagElement \/ m_state this = TagAttribute ->
  m_tagstack this <> [].

(** Sample configurations: a printing object for the declared encoding
    [UTF-8] right after construction, after [printOpenTag( "a")], after a
    following [printAttribute( "k")] or [printValue( "x")], and after a
    [printOpenTag] with the empty name. *)
Definition utf8_attributes : XMLAttributes := {| getEncoding := lit "UTF-8" |}.

Definition fresh : This := This_new utf8_attributes.

Definition opened : This :=
  this_of (printOpenTag charset.IsoLatin1 charset.IsoLatin1 fresh (lit "a") []).

Definition in_attribute : This :=
  this_of (printAttribute charset.IsoLatin1 charset.IsoLatin1 opened
             (lit "k") []).

Definition in_content : This :=
  this_of (printValue charset.IsoLatin1 charset.IsoLatin1 opened (lit "x") []).

Definition opened_unnamed : This :=
  this_of (printOpenTag charset.IsoLatin1 charset.IsoLatin1 fresh [] []).

(** *** Escaping, as the tables are meant to be read *)

(** The characters that attribute-value escaping replaces, with their
    replacements, and those of content escaping. *)
Definition attribute_value_table : list (ascii * CString) :=
  [("<"%char, lit "&lt;"); (">"%char, lit "&gt;"); (APOS, lit "&apos;");
   (DQUOTE, lit "&quot;"); ("&"%char, lit "&amp;"); (NUL, lit "&#0;");
   (BS, lit "&#8;"); (TAB, lit "&#9;"); (LF, lit "&#10;"); (CR, lit "&#13;")].

Definition content_table : list (ascii * CString) :=
  [("<"%char, lit "&lt;"); (">"%char, lit "&gt;"); ("&"%char, lit "&amp;");
   (NUL, lit "&#0;"); (BS, lit "&#8;")].

Definition replacement (table : list (ascii * CString)) (c : ascii)
    : option CString :=
  option_map snd (find (fun p => Ascii.eqb (fst p) c) table).

(** A character is replaced if the table lists it and is printed as it is
    otherwise; a string is escaped character by character. *)
Definition escaped_char (IOCharset : CharSet) (table : list (ascii * CString))
    (c : ascii) : list ascii :=
  match replacement table c with
  | Some str => emit_string IOCharset str
  | None => emit IOCharset c
  end.

Definition escaped_string (IOCharset : CharSet)
    (table : list (ascii * CString)) (src : CString) : list ascii :=
  flat_map (escaped_char IOCharset table) src.

(** The characters of a C string: those before its terminating zero. *)
Fixpoint c_chars (str : CString) : CString :=
  match str with
  | [] => []
  | c :: str' => if Ascii.eqb c NUL then [] else c :: c_chars str'
  end.

(** The string that [printEsc] prints in place of [ch], if any, with the
    tables [echr] and [estr]. *)
Definition substitute (nof_echr : nat) (echr : list ascii)
    (estr : list (option CString)) (ch : ascii) : option CString :=
  match memchr echr ch nof_echr with
  | Some ofs =>
      Some (match nth ofs estr None with Some str => c_chars str | None => [] end)
  | None => None
  end.

(** *** The characters of a string *)

(** The characters of a string in a character set, from its first byte to
    its last: the value of the character at the front, then the characters
    of what follows it. *)
Equations? decode (cs : CharSet) (src : CString) : list UChar
  by wf (length src) lt :=
  decode cs [] := [];
  decode cs (c :: s) := value cs (c :: s) :: decode cs (skip cs (c :: s)).
Proof. pose proof (skip_consumes cs c s). simpl. lia. Qed.

(** The characters before the first NUL. *)
Fixpoint before_NUL (chars : list UChar) : list UChar :=
  match chars with
  | [] => []
  | ch :: rest => if N.eqb ch 0 then [] else ch :: before_NUL rest
  end.

(** Characters in the encoding of the output. *)
Definition encoded (IOCharset : CharSet) (chars : list UChar) : list ascii :=
  flat_map (encode IOCharset) chars.

(** Characters escaped by a table, in the encoding of the output: an ASCII
    character is replaced if the table lists it, every other character is
    encoded as it is. *)
Definition escaped_scalar (IOCharset : CharSet)
    (table : list (ascii * CString)) (ch : UChar) : list ascii :=
  if (ch <? 128)%N then escaped_char IOCharset table (ascii_of_N ch)
  else encode IOCharset ch.

Definition escaped (IOCharset : CharSet) (table : list (ascii * CString))
    (chars : list UChar) : list ascii :=
  flat_map (escaped_scalar IOCharset table) chars.

(** *** Encoding identifiers *)

Definition is_separator (c : ascii) : bool :=
  Ascii.eqb c "-" || Ascii.eqb c " ".

Definition lower_case (c : ascii) : ascii :=
  let n := nat_of_ascii c in
  if (65 <=? n)%nat && (n <=? 90)%nat then ascii_of_nat (n + 32) else c.

(** Two identifiers that differ only in letter case and in occurrences of
    hyphens and spaces. *)
Inductive same_identifier : CString -> CString -> Prop :=
| same_end : same_identifier [] []
| same_separator_l c s t :
    is_separator c = true -> same_identifier s t -> same_identifier (c :: s) t
| same_separator_r c s t :
    is_separator c = true -> same_identifier s t -> same_identifier s (c :: t)
| same_letter a b s t :
    lower_case a = lower_case b -> same_identifier s t ->
    same_identifier (a :: s) (b :: t).

(** The supported set of normalized identifiers. *)
Definition supported : list CString :=
  [lit "utf8"; lit "utf16"; lit "utf16be"; lit "utf16le"; lit "ucs2";
   lit "ucs2be"; lit "ucs2le"; lit "ucs4"; lit "ucs4be"; lit "ucs4le";
   lit "isolatin"; lit "iso8859"].

(** The normalized identifiers that select a printing object, the empty one
    included, with the instantiation each of them stands for. *)
Definition encoding_names : list (CString * XMLPrinterBase.Codec) :=
  [(lit "isolatin", XMLPrinterBase.IsoLatin1);
   (lit "iso8859", XMLPrinterBase.IsoLatin1);
   ([], XMLPrinterBase.UTF8); (lit "utf8", XMLPrinterBase.UTF8);
   (lit "utf16", XMLPrinterBase.UTF16BE);
   (lit "utf16be", XMLPrinterBase.UTF16BE);
   (lit "utf16le", XMLPrinterBase.UTF16LE);
   (lit "ucs2", XMLPrinterBase.UCS2BE); (lit "ucs2be", XMLPrinterBase.UCS2BE);
   (lit "ucs2le", XMLPrinterBase.UCS2LE);
   (lit "ucs4", XMLPrinterBase.UCS4BE); (lit "ucs4be", XMLPrinterBase.UCS4BE);
   (lit "ucs4le", XMLPrinterBase.UCS4LE)].

Definition recognized (enc : CString) : option XMLPrinterBase.Codec :=
  option_map snd (find (fun p => CString_eqb enc (fst p)) encoding_names).

(** The method table and the printer that [create] of the instantiation
    [codec] leaves behind. *)
Definition method_table_of (codec : XMLPrinterBase.Codec)
    : XMLPrinterBase.MethodTable :=
  fst (XMLPrinterObject.create codec XMLPrinterBase.MethodTable_init
         {| getEncoding := [] |}).

Definition created (codec : XMLPrinterBase.Codec) (a : XMLAttributes)
    : XMLPrinter.XMLPrinter :=
  {| XMLPrinter.m_mt := method_table_of codec;
     XMLPrinter.m_obj := Some (This_new a);
     XMLPrinter.m_attributes := a |}.

(** What [createPrinter] leaves of a printer when it returns false. *)
Definition not_created (this : XMLPrinter.XMLPrinter) : XMLPrinter.XMLPrinter :=
  {| XMLPrinter.m_mt := XMLPrinter.m_mt this;
     XMLPrinter.m_obj := None;
     XMLPrinter.m_attributes := XMLPrinter.m_attributes this |}.

(** The exit of [createPrinter] and the method table it leaves. *)
Definition selection (r : option (XMLPrinter.Exit * XMLPrinter.XMLPrinter))
    : option (XMLPrinter.Exit * XMLPrinterBase.MethodTable) :=
  option_map (fun x => (fst x, XMLPrinter.m_mt (snd x))) r.

(** The characters that [parseEncoding] leaves out, and what it stores for
    the others. *)
Definition dropped (char_is_signed : bool) (cc : ascii) : bool :=
  (XMLPrinterBase.int_of_char char_is_signed cc
   <=? XMLPrinterBase.int_of_char char_is_signed " ")%Z
  || Ascii.eqb cc "-" || Ascii.eqb cc " ".

Definition folded (char_is_signed : bool) (cc : ascii) : ascii :=
  XMLPrinterBase.char_of_int
    (XMLPrinterBase.tolower (XMLPrinterBase.int_of_char char_is_signed cc)).

(** *** Character classes *)

Definition is_upper_case (c : ascii) : bool :=
  let n := nat_of_ascii c in (65 <=? n)%nat && (n <=? 90)%nat.

(** A character as [parseEncoding] leaves it: above the space in the order
    of [char], no hyphen and no upper case letter. *)
Definition normalized_char (char_is_signed : bool) (c : ascii) : bool :=
  (XMLPrinterBase.int_of_char char_is_signed " "
   <? XMLPrinterBase.int_of_char char_is_signed c)%Z
  && negb (Ascii.eqb c "-") && negb (is_upper_case c).

(** The characters that must not occur as such in an attribute value
    between double quotes, and in content. *)
Definition attribute_special (c : ascii) : bool :=
  existsb (Ascii.eqb c) ["<"%char; ">"%char; APOS; DQUOTE; NUL; BS; TAB; LF; CR].

Definition content_special (c : ascii) : bool :=
  existsb (Ascii.eqb c) ["<"%char; ">"%char; NUL; BS].

(** A character that none of the two escaping tables lists. *)
Definition plain_char (c : ascii) : bool :=
  match replacement attribute_value_table c with
  | Some _ => false
  | None => true
  end.

(** ** Output is append-only *)

Section AppendOnly.

Variables IOCharset AppCharset : CharSet.

Lemma print_app (ch : UChar) (pre buf : Buffer) :
  print IOCharset ch (pre ++ buf) = pre ++ print IOCharset ch buf.
Proof. unfold print. now rewrite app_assoc. Qed.

Lemma printToBuffer_eq (src : CString) (buf : Buffer) :
  printToBuffer IOCharset AppCharset src buf
  = if N.eqb (value AppCharset src) 0 then buf
    else printToBuffer IOCharset AppCharset (skip AppCharset src)
           (print IOCharset (value AppCharset src) buf).
Proof.
  simp printToBuffer.
  destruct (inspect (N.eqb (value AppCharset src) 0)) as [[] e];
    simp printToBuffer; rewrite e; reflexivity.
Qed.

Lemma printToBuffer_prefix (src : CString) (buf pre : Buffer) :
  printToBuffer IOCharset AppCharset src (pre ++ buf)
  = pre ++ printToBuffer IOCharset AppCharset src buf.
Proof.
  revert pre.
  funelim (printToBuffer IOCharset AppCharset src buf); intros pre.
  - rewrite (printToBuffer_eq src (pre ++ buf)), e. reflexivity.
  - rewrite (printToBuffer_eq src (pre ++ buf)), more, print_app. apply H.
Qed.

Lemma printToBuffer_emits (src : CString) (buf : Buffer) :
  printToBuffer IOCharset AppCharset src buf
  = buf ++ transcode IOCharset AppCharset src.
Proof.
  unfold transcode. rewrite <- printToBuffer_prefix, app_nil_r. reflexivity.
Qed.

Lemma printCStr_prefix (str : CString) (buf pre : Buffer) :
  printCStr IOCharset str (pre ++ buf) = pre ++ printCStr IOCharset str buf.
Proof.
  revert buf. induction str as [|c str IH]; intros buf; simpl.
  - reflexivity.
  - destruct (Ascii.eqb c NUL); [reflexivity|].
    rewrite print_app. apply IH.
Qed.

Lemma printEsc_prefix ch buf pre nof_echr echr estr :
  printEsc IOCharset ch (pre ++ buf) nof_echr echr estr
  = pre ++ printEsc IOCharset ch buf nof_echr echr estr.
Proof.
  unfold printEsc. destruct (memchr echr ch nof_echr) as [ofs|].
  - destruct (nth ofs estr None); [apply printCStr_prefix | reflexivity].
  - apply print_app.
Qed.

Lemma printToBufferSubstChr_eq src buf nof_echr echr estr :
  printToBufferSubstChr IOCharset AppCharset src buf nof_echr echr estr
  = if N.eqb (value AppCharset src) 0 then buf
    else printToBufferSubstChr IOCharset AppCharset (skip AppCharset src)
           (if (value AppCharset src <? 128)%N
            then printEsc IOCharset (char_of_uchar (value AppCharset src)) buf
                          nof_echr echr estr
            else print IOCharset (value AppCharset src) buf)
           nof_echr echr estr.
Proof.
  simp printToBufferSubstChr.
  destruct (inspect (N.eqb (value AppCharset src) 0)) as [[] e];
    simp printToBufferSubstChr; rewrite e; reflexivity.
Qed.

Lemma printToBufferSubstChr_prefix src buf pre nof_echr echr estr :
  printToBufferSubstChr IOCharset AppCharset src (pre ++ buf)
    nof_echr echr estr
  = pre ++ printToBufferSubstChr IOCharset AppCharset src buf
             nof_echr echr estr.
Proof.
  revert pre.
  funelim (printToBufferSubstChr IOCharset AppCharset src buf
             nof_echr echr estr); intros pre.
  - rewrite (printToBufferSubstChr_eq src (pre ++ buf)), e. reflexivity.
  - rewrite (printToBufferSubstChr_eq src (pre ++ buf)), more.
    destruct (value AppCharset src <? 128)%N.
    + rewrite printEsc_prefix. apply H.
    + rewrite print_app. apply H.
Qed.

Lemma printToBufferChar_emits (ch : ascii) (buf : Buffer) :
  printToBufferChar IOCharset ch buf = buf ++ emit IOCharset ch.
Proof. reflexivity. Qed.

Lemma printToBufferAttributeValue_emits (src : CString) (buf : Buffer) :
  printToBufferAttributeValue IOCharset AppCharset src buf
  = buf ++ emit IOCharset DQUOTE
        ++ attribute_escaped IOCharset AppCharset src
        ++ emit IOCharset DQUOTE.
Proof.
  unfold printToBufferAttributeValue, attribute_escaped, print, emit.
  rewrite <- (app_nil_r (buf ++ _)) at 1.
  rewrite printToBufferSubstChr_prefix. now rewrite <- !app_assoc.
Qed.

Lemma printToBufferContent_emits (src : CString) (buf : Buffer) :
  printToBufferContent IOCharset AppCharset src buf
  = buf ++ content_escaped IOCharset AppCharset src.
Proof.
  unfold printToBufferContent, content_escaped.
  rewrite <- (app_nil_r buf) at 1.
  apply printToBufferSubstChr_prefix.
Qed.

(** The sizes passed with the two literals of [printHeader] are their
    lengths. *)
Lemma header_literals :
  header_head = lit "<?xml version=" ++ [DQUOTE] ++ lit "1.0" ++ [DQUOTE]
                ++ lit " encoding=" ++ [DQUOTE]
  /\ header_tail = [DQUOTE] ++ lit " standalone=" ++ [DQUOTE] ++ lit "yes"
                   ++ [DQUOTE] ++ lit "?>" ++ [LF].
Proof. split; reflexivity. Qed.

Lemma printHeader_emits (this : This) (buf : Buffer) :
  printHeader IOCharset AppCharset this buf
  = (set_state this Content,
     buf ++ prolog IOCharset AppCharset (getEncoding (m_attributes this))).
Proof.
  unfold printHeader, prolog. destruct header_literals as [-> ->].
  rewrite !printToBuffer_emits. now rewrite <- !app_assoc.
Qed.

Lemma exitTagContext_emits (this : This) (buf : Buffer) :
  exitTagContext IOCharset AppCharset this buf
  = match m_state this with
    | Content => (this, buf)
    | Init =>
        (set_state this Content,
         buf ++ prolog IOCharset AppCharset (getEncoding (m_attributes this))
             ++ emit IOCharset ">")
    | TagAttribute | TagElement =>
        (set_state this Content, buf ++ emit IOCharset ">")
    end.
Proof.
  unfold exitTagContext.
  destruct (m_state this) eqn:E; cbn [State_eqb negb]; try reflexivity.
  rewrite printHeader_emits, printToBufferChar_emits.
  now rewrite <- app_assoc.
Qed.

End AppendOnly.

(** ** The operations of the printing object *)

Section Operations.

Variables IOCharset AppCharset : CharSet.
Variable top_success : bool.
Variable cltag0 : CString.

Local Abbreviation emit := (emit IOCharset).
Local Abbreviation transcode := (transcode IOCharset AppCharset).
Local Abbreviation prolog := (prolog IOCharset AppCharset).
Local Abbreviation attribute_escaped := (attribute_escaped IOCharset AppCharset).
Local Abbreviation content_escaped := (content_escaped IOCharset AppCharset).
Local Abbreviation exitTagContext := (exitTagContext IOCharset AppCharset).
Local Abbreviation printOpenTag := (printOpenTag IOCharset AppCharset).
Local Abbreviation printAttribute := (printAttribute IOCharset AppCharset).
Local Abbreviation printValue := (printValue IOCharset AppCharset).
Local Abbreviation printCloseTag :=
  (printCloseTag IOCharset AppCharset top_success cltag0).

Ltac close_guard :=
  unfold XMLPrinterObject.printCloseTag;
  destruct (TagStack.top _ _) as [top_rt element]; cbv zeta;
  match goal with
  | |- context [orb top_rt ?e] => destruct (orb top_rt e)
  end.

Lemma State_eqb_eq (a b : State) : State_eqb a b = true <-> a = b.
Proof. destruct a, b; simpl; split; congruence. Qed.

Lemma State_eqb_neq (a b : State) : State_eqb a b = false <-> a <> b.
Proof. destruct a, b; simpl; split; congruence. Qed.

Lemma printOpenTag_emits (this : This) (src : CString) (buf : Buffer) :
  printOpenTag this src buf
  = (true,
     {| m_state := TagElement; m_buf := m_buf this;
        m_tagstack := src :: m_tagstack this;
        m_attributes := m_attributes this |},
     snd (exitTagContext this buf) ++ emit "<" ++ transcode src).
Proof.
  unfold XMLPrinterObject.printOpenTag.
  rewrite exitTagContext_emits.
  destruct (m_state this) eqn:E;
    rewrite printToBuffer_emits, printToBufferChar_emits;
    cbn; rewrite <- ?app_assoc; reflexivity.
Qed.

(** C2 (the code at its failing inputs): in every state but [TagAttribute]
    [printValue] appends the value with content escaping to what
    [exitTagContext] leaves in the buffer, and returns false. *)
Theorem printValue_content_returns_false
    (this : This) (src : CString) (buf : Buffer) :
  m_state this <> TagAttribute ->
  rt_of (printValue this src buf) = false
  /\ buf_of (printValue this src buf)
     = snd (exitTagContext this buf) ++ content_escaped src.
Proof.
  intros E. apply State_eqb_neq in E.
  unfold XMLPrinterObject.printValue. rewrite E.
  rewrite exitTagContext_emits.
  destruct (m_state this); rewrite printToBufferContent_emits;
    split; reflexivity.
Qed.

(** C3 (the code at its failing inputs): the first [printOpenTag] of a
    printing object appends the XML prolog for the declared encoding, then
    [>], and only then [<] and the name; it pushes the name and enters
    [TagElement]. *)
Theorem printOpenTag_first_output
    (b : Buffer) (st : TagStack.t) (a : XMLAttributes)
    (src : CString) (buf : Buffer) :
  printOpenTag
    {| m_state := Init; m_buf := b; m_tagstack := st; m_attributes := a |}
    src buf
  = (true,
     {| m_state := TagElement; m_buf := b; m_tagstack := src :: st;
        m_attributes := a |},
     buf ++ prolog (getEncoding a) ++ emit ">" ++ emit "<" ++ transcode src).
Proof.
  rewrite printOpenTag_emits, exitTagContext_emits. cbn.
  now rewrite <- !app_assoc.
Qed.

(** In the other states [printOpenTag] appends [<] and the name, after the
    [>] that ends a pending tag-open context. *)
Lemma printOpenTag_later_output (this : This) (src : CString) (buf : Buffer) :
  buf_of (printOpenTag this src buf)
  = match m_state this with
    | Init =>
        buf ++ prolog (getEncoding (m_attributes this)) ++ emit ">"
            ++ emit "<" ++ transcode src
    | Content => buf ++ emit "<" ++ transcode src
    | TagAttribute | TagElement => buf ++ emit ">" ++ emit "<" ++ transcode src
    end.
Proof.
  rewrite printOpenTag_emits, exitTagContext_emits. unfold buf_of.
  destruct (m_state this); cbn; now rewrite <- ?app_assoc.
Qed.

(** C9: a [printAttribute] or [printCloseTag] that returns false has
    appended nothing to the buffer and has left the state and the tag stack
    of the printing object as they were. *)
Theorem failed_call_changes_nothing
    (this : This) (src : CString) (buf : Buffer) :
  (rt_of (printAttribute this src buf) = false ->
   buf_of (printAttribute this src buf) = buf
   /\ this_of (printAttribute this src buf) = this)
  /\
  (rt_of (printCloseTag this buf) = false ->
   buf_of (printCloseTag this buf) = buf
   /\ this_of (printCloseTag this buf) = this).
Proof.
  split.
  - unfold XMLPrinterObject.printAttribute.
    destruct (State_eqb (m_state this) TagElement); cbn; [discriminate|auto].
  - close_guard; [cbn; auto|].
    destruct (State_eqb (m_state this) TagElement); [cbn; discriminate|].
    destruct (negb (State_eqb (m_state this) Content)); cbn;
      [auto | discriminate].
Qed.

Lemma tag_open_has_name_step_close
    (cltag : CString) (this : This) (buf : Buffer) :
  tag_open_has_name this ->
  tag_open_has_name
    (this_of (XMLPrinterObject.printCloseTag IOCharset AppCharset
                top_success cltag this buf)).
Proof.
  unfold tag_open_has_name. intros IH.
  close_guard; [exact IH|].
  destruct (State_eqb (m_state this) TagElement) eqn:E1.
  - cbn. intros [H|H]; discriminate.
  - destruct (State_eqb (m_state this) Content) eqn:E2; cbn; [|exact IH].
    apply State_eqb_eq in E2. rewrite E2. intros [H|H]; discriminate.
Qed.

(** C10: in every configuration that a printing object reaches from its
    construction (state [Init], empty tag stack) through calls of
    [printOpenTag], [printAttribute], [printValue] and [printCloseTag], the
    tag stack is nonempty if the state is [TagElement] or [TagAttribute]. *)
Theorem tag_stack_nonempty_while_tag_open (this : This) :
  reachable IOCharset AppCharset top_success this ->
  m_state this = TagElement \/ m_state this = TagAttribute ->
  m_tagstack this <> [].
Proof.
  intros R. change (tag_open_has_name this).
  induction R as [a | this src buf R IH | this src buf R IH
                 | this src buf R IH | cltag this buf R IH].
  - intros [H|H]; discriminate.
  - rewrite printOpenTag_emits. cbn. intros _. discriminate.
  - unfold XMLPrinterObject.printAttribute, tag_open_has_name in *.
    destruct (State_eqb (m_state this) TagElement) eqn:E; cbn; [|exact IH].
    apply State_eqb_eq in E. intros _. apply IH. now left.
  - unfold XMLPrinterObject.printValue, tag_open_has_name in *.
    destruct (State_eqb (m_state this) TagAttribute) eqn:E; cbn.
    + apply State_eqb_eq in E. intros _. apply IH. now right.
    + rewrite exitTagContext_emits.
      destruct (m_state this) eqn:S; try discriminate E;
        cbn; rewrite ?S; intros [H|H]; discriminate.
  - apply tag_open_has_name_step_close, IH.
Qed.

End Operations.

(** ** The operations on the sample configurations *)

Section Samples.

Local Abbreviation L1 := charset.IsoLatin1.

Lemma printValue_content_returns_false_witness :
  m_state in_content <> TagAttribute
  /\ rt_of (printValue L1 L1 in_content (lit "x") []) = false
  /\ buf_of (printValue L1 L1 in_content (lit "x") [])
     = snd (exitTagContext L1 L1 in_content [])
       ++ content_escaped L1 L1 (lit "x").
Proof.
  split; [vm_compute; discriminate|].
  apply (printValue_content_returns_false L1 L1 in_content (lit "x") []).
  vm_compute; discriminate.
Defined.

(** In state [Content] the value is appended and false is returned. *)
Example printValue_content_example :
  m_state in_content = Content
  /\ printValue L1 L1 in_content (lit "x") [] = (false, in_content, lit "x").
Proof. split; reflexivity. Qed.

(** The first output of a printer: a [>] stands between the prolog and the
    opening tag. *)
Example printOpenTag_first_output_example :
  buf_of (printOpenTag L1 L1 fresh (lit "a") [])
  = lit "<?xml version=" ++ [DQUOTE] ++ lit "1.0" ++ [DQUOTE]
    ++ lit " encoding=" ++ [DQUOTE] ++ lit "UTF-8" ++ [DQUOTE]
    ++ lit " standalone=" ++ [DQUOTE] ++ lit "yes" ++ [DQUOTE]
    ++ lit "?>" ++ [LF] ++ lit "><a".
Proof. reflexivity. Qed.

Lemma failed_call_changes_nothing_witness :
  (rt_of (printAttribute L1 L1 in_content (lit "k") (lit "<a>x")) = false
   /\ buf_of (printAttribute L1 L1 in_content (lit "k") (lit "<a>x"))
      = lit "<a>x"
   /\ this_of (printAttribute L1 L1 in_content (lit "k") (lit "<a>x"))
      = in_content)
  /\
  (rt_of (printCloseTag L1 L1 false [] in_attribute (lit "<a k=")) = false
   /\ buf_of (printCloseTag L1 L1 false [] in_attribute (lit "<a k="))
      = lit "<a k="
   /\ this_of (printCloseTag L1 L1 false [] in_attribute (lit "<a k="))
      = in_attribute).
Proof.
  split; (split; [reflexivity|]).
  - apply (proj1 (failed_call_changes_nothing L1 L1 false [] in_content
                    (lit "k") (lit "<a>x"))).
    reflexivity.
  - apply (proj2 (failed_call_changes_nothing L1 L1 false [] in_attribute
                    (lit "k") (lit "<a k="))).
    reflexivity.
Defined.

Lemma tag_stack_nonempty_while_tag_open_witness :
  reachable L1 L1 true in_attribute
  /\ (m_state in_attribute = TagElement \/ m_state in_attribute = TagAttribute)
  /\ m_tagstack in_attribute <> [].
Proof.
  assert (R : reachable L1 L1 true in_attribute).
  { apply reach_printAttribute, reach_printOpenTag, reach_new. }
  split; [exact R|]. split; [right; reflexivity|].
  apply (tag_stack_nonempty_while_tag_open R). right. reflexivity.
Defined.

End Samples.

(** ** Escaping *)

Section Escaping.

Variable IOCharset : CharSet.

Local Abbreviation L1 := charset.IsoLatin1.

Ltac each_char c :=
  destruct c as [[] [] [] [] [] [] [] []].

Lemma printCStr_emits (str : CString) (buf : Buffer) :
  printCStr IOCharset str buf = buf ++ emit_string IOCharset (c_chars str).
Proof.
  revert buf. induction str as [|c str IH]; intros buf; simpl.
  - now rewrite app_nil_r.
  - destruct (Ascii.eqb c NUL); simpl; [now rewrite app_nil_r|].
    rewrite IH. unfold print, emit. now rewrite <- app_assoc.
Qed.

Lemma printEsc_emits ch buf nof_echr echr estr :
  printEsc IOCharset ch buf nof_echr echr estr
  = buf ++ match substitute nof_echr echr estr ch with
           | Some str => emit_string IOCharset str
           | None => emit IOCharset ch
           end.
Proof.
  unfold printEsc, substitute.
  destruct (memchr echr ch nof_echr) as [ofs|]; [|reflexivity].
  destruct (nth ofs estr None); [apply printCStr_emits|].
  simpl. now rewrite app_nil_r.
Qed.

(** The tables of the two escaping functions replace the characters that
    the escaping tables list, NUL included, by the strings listed there. *)
Lemma substitute_attribute_value (c : ascii) :
  substitute attr_nof_echr attr_echr attr_estr c
  = replacement attribute_value_table c.
Proof. each_char c; reflexivity. Qed.

Lemma substitute_content (c : ascii) :
  substitute content_nof_echr content_echr content_estr c
  = replacement content_table c.
Proof. each_char c; reflexivity. Qed.

Lemma replacement_ascii_only (c : ascii) :
  (N_of_ascii c <? 128)%N = false ->
  replacement attribute_value_table c = None
  /\ replacement content_table c = None.
Proof. each_char c; intros H; try discriminate H; split; reflexivity. Qed.

(** One turn of the loop of [printToBufferSubstChr], on the character [c]. *)
Lemma substitution_step_attribute_value (c : ascii) (buf : Buffer) :
  (if (N_of_ascii c <? 128)%N
   then printEsc IOCharset (char_of_uchar (N_of_ascii c)) buf
          attr_nof_echr attr_echr attr_estr
   else print IOCharset (N_of_ascii c) buf)
  = buf ++ escaped_char IOCharset attribute_value_table c.
Proof.
  unfold char_of_uchar, escaped_char. rewrite ascii_N_embedding.
  destruct (N_of_ascii c <? 128)%N eqn:A.
  - now rewrite printEsc_emits, substitute_attribute_value.
  - now rewrite (proj1 (replacement_ascii_only c A)).
Qed.

Lemma substitution_step_content (c : ascii) (buf : Buffer) :
  (if (N_of_ascii c <? 128)%N
   then printEsc IOCharset (char_of_uchar (N_of_ascii c)) buf
          content_nof_echr content_echr content_estr
   else print IOCharset (N_of_ascii c) buf)
  = buf ++ escaped_char IOCharset content_table c.
Proof.
  unfold char_of_uchar, escaped_char. rewrite ascii_N_embedding.
  destruct (N_of_ascii c <? 128)%N eqn:A.
  - now rewrite printEsc_emits, substitute_content.
  - now rewrite (proj2 (replacement_ascii_only c A)).
Qed.

Lemma N_of_ascii_NUL (c : ascii) : N_of_ascii c = 0%N -> c = NUL.
Proof.
  intros H. rewrite <- (ascii_N_embedding c), H. reflexivity.
Qed.

(** The substitution loop over a scanner that yields the bytes as they are
    ends at the first NUL. *)
Lemma printToBufferSubstChr_NUL (a b : CString) buf nof_echr echr estr :
  printToBufferSubstChr IOCharset L1 (a ++ NUL :: b) buf nof_echr echr estr
  = printToBufferSubstChr IOCharset L1 a buf nof_echr echr estr.
Proof.
  revert buf. induction a as [|c a IH]; intros buf.
  - rewrite (printToBufferSubstChr_eq _ _ ([] ++ NUL :: b)),
            (printToBufferSubstChr_eq _ _ []).
    reflexivity.
  - rewrite (printToBufferSubstChr_eq _ _ ((c :: a) ++ NUL :: b)),
            (printToBufferSubstChr_eq _ _ (c :: a)).
    cbn [value skip L1 charset.IsoLatin1 app tl].
    destruct (N.eqb (N_of_ascii c) 0); [reflexivity|]. apply IH.
Qed.

(** C6 (the code at its failing inputs): under attribute-value escaping as
    well as under content escaping, a value is escaped up to its first NUL
    only; neither the NUL nor what follows it gets into the output. *)
Theorem escaping_ends_at_NUL (a b : CString) :
  attribute_escaped IOCharset L1 (a ++ NUL :: b)
  = attribute_escaped IOCharset L1 a
  /\ content_escaped IOCharset L1 (a ++ NUL :: b)
     = content_escaped IOCharset L1 a.
Proof. split; apply printToBufferSubstChr_NUL. Qed.

Lemma printToBufferSubstChr_without_NUL
    (src : CString) buf nof_echr echr estr table :
  (forall c b,
     (if (N_of_ascii c <? 128)%N
      then printEsc IOCharset (char_of_uchar (N_of_ascii c)) b
             nof_echr echr estr
      else print IOCharset (N_of_ascii c) b)
     = b ++ escaped_char IOCharset table c) ->
  ~ In NUL src ->
  printToBufferSubstChr IOCharset L1 src buf nof_echr echr estr
  = buf ++ escaped_string IOCharset table src.
Proof.
  intros E. unfold escaped_string.
  revert buf. induction src as [|c src IH]; intros buf N.
  - rewrite printToBufferSubstChr_eq. cbn. now rewrite app_nil_r.
  - rewrite printToBufferSubstChr_eq.
    cbn [value skip L1 charset.IsoLatin1 tl flat_map].
    destruct (N.eqb (N_of_ascii c) 0) eqn:Z.
    + exfalso. apply N. left. apply N_of_ascii_NUL.
      now apply N.eqb_eq.
    + rewrite E, IH, <- app_assoc; [reflexivity|].
      intros I. apply N. now right.
Qed.

(** A value without NUL is escaped character by character as the tables
    say: attribute-value escaping replaces [<], [>], ['], the double quote,
    [&], BS, TAB, LF and CR, content escaping replaces [<], [>], [&] and
    BS, and every other character is printed as it is. *)
Lemma escaping_without_NUL (src : CString) :
  ~ In NUL src ->
  attribute_escaped IOCharset L1 src
  = escaped_string IOCharset attribute_value_table src
  /\ content_escaped IOCharset L1 src
     = escaped_string IOCharset content_table src.
Proof.
  intros N. split.
  - apply (@printToBufferSubstChr_without_NUL src [] _ _ _ _
             substitution_step_attribute_value N).
  - apply (@printToBufferSubstChr_without_NUL src [] _ _ _ _
             substitution_step_content N).
Qed.

(** X22: every offset at which [memchr] finds a character in the tables holds a
    string: no null pointer of [estr] is ever dereferenced. *)
Lemma substitute_defined (c : ascii) :
  (forall ofs, memchr attr_echr c attr_nof_echr = Some ofs ->
     nth ofs attr_estr None <> None)
  /\ (forall ofs, memchr content_echr c content_nof_echr = Some ofs ->
        nth ofs content_estr None <> None).
Proof.
  each_char c; split; intros ofs H; vm_compute in H;
    try discriminate H; injection H as <-; discriminate.
Qed.

(** Over a scanner that yields the bytes as they are, a string without NUL
    is printed character by character; with ISO-8859-1 on the output side
    as well it is printed as it is. *)
Lemma transcode_bytes (src : CString) :
  ~ In NUL src ->
  transcode IOCharset L1 src = emit_string IOCharset src.
Proof.
  intros N. unfold transcode, emit_string.
  rewrite <- (app_nil_l (flat_map _ src)). generalize (@nil ascii) as buf.
  induction src as [|c src IH]; intros buf.
  - rewrite printToBuffer_eq. cbn. now rewrite app_nil_r.
  - rewrite printToBuffer_eq. cbn [value skip L1 charset.IsoLatin1 tl flat_map].
    destruct (N.eqb (N_of_ascii c) 0) eqn:Z.
    + exfalso. apply N. left. apply N_of_ascii_NUL. now apply N.eqb_eq.
    + rewrite IH; [|intros I; apply N; now right].
      unfold print, emit, uchar_of_char. now rewrite <- app_assoc.
Qed.

(** The failing input of C6: the value [a NUL b]. The tables call for
    [a&#0;b]; the printer stops after [a]. *)
Example escaping_NUL_example :
  escaped_string L1 attribute_value_table ["a"; NUL; "b"]%char = lit "a&#0;b"
  /\ attribute_escaped L1 L1 ["a"; NUL; "b"]%char = lit "a"
  /\ content_escaped L1 L1 ["a"; NUL; "b"]%char = lit "a"
  /\ buf_of (printValue L1 L1 in_attribute ["a"; NUL; "b"]%char [])
     = [" "; DQUOTE; "a"; DQUOTE]%char.
Proof. repeat split; reflexivity. Qed.

End Escaping.

(** X18: with ISO-8859-1 on both sides, a string without NUL is printed as it
    is: [printToBuffer] appends exactly its characters. *)
Lemma transcode_IsoLatin1 (src : CString) :
  ~ In NUL src -> transcode charset.IsoLatin1 charset.IsoLatin1 src = src.
Proof.
  intros N. rewrite (@transcode_bytes _ src N). unfold emit_string.
  clear N. induction src as [|c src IH]; [reflexivity|].
  simpl. rewrite IH. f_equal.
  destruct c as [[] [] [] [] [] [] [] []]; reflexivity.
Qed.

(** The start of a document: the printer writes a [>] after the prolog and
    a space after the [=] of the attribute. *)
Example print_element_example :
  let L1 := charset.IsoLatin1 in
  let '(_, this, buf) := printOpenTag L1 L1 fresh (lit "a") [] in
  let '(_, this, buf) := printAttribute L1 L1 this (lit "k") buf in
  let '(rt, this, buf) := printValue L1 L1 this (lit "1<2") buf in
  rt = true /\ m_state this = TagElement /\ m_tagstack this = [lit "a"]
  /\ buf = lit "<?xml version=" ++ [DQUOTE] ++ lit "1.0" ++ [DQUOTE]
            ++ lit " encoding=" ++ [DQUOTE] ++ lit "UTF-8" ++ [DQUOTE]
            ++ lit " standalone=" ++ [DQUOTE] ++ lit "yes" ++ [DQUOTE]
            ++ lit "?>" ++ [LF] ++ lit "><a k= " ++ [DQUOTE] ++ lit "1&lt;2"
            ++ [DQUOTE].
Proof. repeat split. Qed.

(** ** Encoding identifiers and the creation of the printing object *)

Section Encoding.

Variable char_is_signed : bool.

Import XMLPrinterBase.

Local Abbreviation parseEncoding := (parseEncoding char_is_signed).
Local Abbreviation createPrinter := (XMLPrinter.createPrinter char_is_signed).
Local Abbreviation drops := (dropped char_is_signed).
Local Abbreviation folds := (folded char_is_signed).

Ltac each_char c :=
  destruct c as [[] [] [] [] [] [] [] []].

Lemma parseEncoding_loop_dest (dest src : CString) :
  parseEncoding_loop char_is_signed dest src = dest ++ parseEncoding src.
Proof.
  unfold XMLPrinterBase.parseEncoding.
  revert dest. induction src as [|cc rest IH]; intros dest; simpl.
  - now rewrite app_nil_r.
  - destruct (int_of_char char_is_signed cc <=? int_of_char char_is_signed " ")%Z;
      [apply IH|].
    destruct (Ascii.eqb cc "-"); [apply IH|].
    destruct (Ascii.eqb cc " "); [apply IH|].
    rewrite IH, (IH [_]), <- app_assoc. reflexivity.
Qed.

Lemma parseEncoding_cons (cc : ascii) (rest : CString) :
  parseEncoding (cc :: rest)
  = if drops cc then parseEncoding rest
    else folds cc :: parseEncoding rest.
Proof.
  unfold XMLPrinterBase.parseEncoding at 1, dropped, folded.
  simpl.
  destruct (int_of_char char_is_signed cc <=? int_of_char char_is_signed " ")%Z;
    [reflexivity|].
  destruct (Ascii.eqb cc "-"); [reflexivity|].
  destruct (Ascii.eqb cc " "); [reflexivity|].
  simpl. apply parseEncoding_loop_dest.
Qed.

Lemma dropped_separator (c : ascii) : is_separator c = true -> drops c = true.
Proof.
  unfold is_separator, dropped. intros H.
  destruct (Ascii.eqb c "-"), (Ascii.eqb c " "); try discriminate H;
    now rewrite ?orb_true_r.
Qed.

Lemma dropped_lower_case (c : ascii) : drops (lower_case c) = drops c.
Proof. destruct char_is_signed; each_char c; reflexivity. Qed.

Lemma folded_lower_case (c : ascii) : folds (lower_case c) = folds c.
Proof. destruct char_is_signed; each_char c; reflexivity. Qed.

Lemma folded_not_NUL (c : ascii) : drops c = false -> folds c <> NUL.
Proof.
  destruct char_is_signed; each_char c; intros H; try discriminate H;
    discriminate.
Qed.

Lemma parseEncoding_same_identifier (s t : CString) :
  same_identifier s t -> parseEncoding s = parseEncoding t.
Proof.
  induction 1 as [|c s t S _ IH|c s t S _ IH|a b s t L _ IH].
  - reflexivity.
  - now rewrite parseEncoding_cons, (dropped_separator c S).
  - now rewrite parseEncoding_cons, (dropped_separator c S).
  - rewrite !parseEncoding_cons, IH.
    rewrite <- (dropped_lower_case a), <- (folded_lower_case a), L.
    now rewrite dropped_lower_case, folded_lower_case.
Qed.

Lemma parseEncoding_no_NUL (src : CString) : ~ In NUL (parseEncoding src).
Proof.
  induction src as [|cc rest IH]; [intros []|].
  rewrite parseEncoding_cons. destruct (drops cc) eqn:D; [exact IH|].
  intros [H|H]; [now apply (folded_not_NUL cc D) | now apply IH].
Qed.

Lemma CString_eqb_eq (a b : CString) : CString_eqb a b = true <-> a = b.
Proof.
  revert b. induction a as [|x a IH]; intros [|y b]; simpl;
    try (split; congruence).
  rewrite andb_true_iff, Ascii.eqb_eq, IH. split.
  - intros [-> ->]. reflexivity.
  - intros H. injection H as -> ->. auto.
Qed.

Lemma CString_eqb_neq (a b : CString) : a <> b -> CString_eqb a b = false.
Proof.
  intros N. destruct (CString_eqb a b) eqn:E; [|reflexivity].
  apply CString_eqb_eq in E. contradiction.
Qed.

(** On a string without NUL, comparing as many characters as the string has
    with a literal that is not longer always meets a difference or the
    end of the count before the end of either object. *)
Lemma memcmp_eq_c_str (enc name : CString) :
  ~ In NUL enc -> (length name <= length enc)%nat ->
  memcmp_eq (c_str enc) (c_str name) (length enc)
  = Some (CString_eqb enc name).
Proof.
  revert name. induction enc as [|x enc IH]; intros name N L.
  - destruct name; [reflexivity | simpl in L; lia].
  - destruct name as [|y name]; simpl.
    + destruct (Ascii.eqb x NUL) eqn:E; [|reflexivity].
      apply Ascii.eqb_eq in E. exfalso. apply N. left. congruence.
    + destruct (Ascii.eqb x y); [|reflexivity].
      apply IH; [|simpl in L; lia]. intros I. apply N. now right.
Qed.

Lemma prefix_test_eqb (enc name : CString) :
  ~ In NUL enc ->
  XMLPrinter.prefix_test (length name) enc name
  = Some (CString_eqb enc name).
Proof.
  intros N. unfold XMLPrinter.prefix_test.
  destruct (length name <=? length enc)%nat eqn:L.
  - apply Nat.leb_le in L. now apply memcmp_eq_c_str.
  - apply Nat.leb_gt in L. rewrite CString_eqb_neq; [reflexivity|].
    intros ->. lia.
Qed.

(** What [createPrinter] does, by the normalization of the declared
    encoding. *)
Lemma createPrinter_recognized (this : XMLPrinter.XMLPrinter) :
  createPrinter this
  = Some
      match recognized
              (parseEncoding (getEncoding (XMLPrinter.m_attributes this))) with
      | Some codec =>
          (XMLPrinter.EndOfFunction,
           created codec (XMLPrinter.m_attributes this))
      | None => (XMLPrinter.Return false, not_created this)
      end.
Proof.
  unfold XMLPrinter.createPrinter.
  pose proof (parseEncoding_no_NUL
                (getEncoding (XMLPrinter.m_attributes this))) as N.
  set (enc := parseEncoding (getEncoding (XMLPrinter.m_attributes this))) in *.
  change 8%nat with (length (lit "isolatin")).
  change 7%nat with (length (lit "iso8859")).
  rewrite !(@prefix_test_eqb enc _ N).
  assert (Z : Nat.eqb (length enc) 0 = CString_eqb enc []).
  { destruct enc; reflexivity. }
  rewrite Z. unfold recognized, encoding_names. cbn [find fst snd].
  repeat match goal with
         | |- context [CString_eqb enc ?n] =>
             destruct (CString_eqb enc n); cbn [orb option_map snd fst];
             [destruct this as [mt [obj|] a]; reflexivity |]
         end.
  destruct this as [mt [obj|] a]; reflexivity.
Qed.

(** C8: for every identifier whose normalization is recognized,
    [createPrinter] sets all six entries of the method table to the members
    of the instantiation for that encoding, creates its printing object in
    state [Init] with an empty tag stack, and leaves through the end of the
    function without a return value; it returns, and then false, exactly
    for the identifiers that are not recognized, with no printing object
    and the method table as it was. *)
Theorem createPrinter_exit (this : XMLPrinter.XMLPrinter) :
  createPrinter this
  = Some
      match recognized
              (parseEncoding (getEncoding (XMLPrinter.m_attributes this))) with
      | Some codec =>
          (XMLPrinter.EndOfFunction,
           {| XMLPrinter.m_mt :=
                {| m_printOpenTag := Some codec;
                   m_printCloseTag := Some codec;
                   m_printAttribute := Some codec;
                   m_printValue := Some codec;
                   m_copy := Some codec;
                   m_del := Some codec |};
              XMLPrinter.m_obj :=
                Some {| m_state := Init; m_buf := []; m_tagstack := [];
                        m_attributes := XMLPrinter.m_attributes this |};
              XMLPrinter.m_attributes := XMLPrinter.m_attributes this |})
      | None =>
          (XMLPrinter.Return false,
           {| XMLPrinter.m_mt := XMLPrinter.m_mt this;
              XMLPrinter.m_obj := None;
              XMLPrinter.m_attributes := XMLPrinter.m_attributes this |})
      end.
Proof.
  rewrite createPrinter_recognized.
  destruct (recognized _); reflexivity.
Qed.

Lemma not_recognized (enc : CString) :
  enc <> [] -> ~ In enc supported -> recognized enc = None.
Proof.
  intros E S. unfold recognized, encoding_names. cbn [find fst].
  repeat match goal with
         | |- context [CString_eqb enc ?n] =>
             rewrite (@CString_eqb_neq enc n);
             [| intros ->; first [now apply E | apply S; simpl; tauto]]
         end.
  reflexivity.
Qed.

(** C7 (as amended): two identifiers that differ only in letter case and in
    occurrences of hyphens and spaces are normalized to the same string and
    select the same instantiation; an identifier whose normalization is not
    empty and not in the supported set makes [createPrinter] return false
    with no printing object created; an identifier with an empty
    normalization selects the UTF-8 printer. *)
Theorem encoding_identifier_normalized (s t : CString) :
  (same_identifier s t ->
   parseEncoding s = parseEncoding t
   /\ selection (createPrinter (XMLPrinter.XMLPrinter_new {| getEncoding := s |}))
      = selection (createPrinter (XMLPrinter.XMLPrinter_new {| getEncoding := t |})))
  /\
  (parseEncoding s <> [] -> ~ In (parseEncoding s) supported ->
   createPrinter (XMLPrinter.XMLPrinter_new {| getEncoding := s |})
   = Some (XMLPrinter.Return false,
           XMLPrinter.XMLPrinter_new {| getEncoding := s |}))
  /\
  (parseEncoding s = [] ->
   createPrinter (XMLPrinter.XMLPrinter_new {| getEncoding := s |})
   = Some (XMLPrinter.EndOfFunction, created UTF8 {| getEncoding := s |})).
Proof.
  rewrite !createPrinter_recognized. cbn [XMLPrinter.m_attributes
    XMLPrinter.XMLPrinter_new getEncoding].
  split; [|split].
  - intros S. rewrite (parseEncoding_same_identifier S).
    split; [reflexivity|].
    destruct (recognized (parseEncoding t)); reflexivity.
  - intros E S. now rewrite (not_recognized E S).
  - intros ->. reflexivity.
Qed.

End Encoding.

Section EncodingSamples.

Import XMLPrinterBase.

Lemma encoding_identifier_normalized_witness :
  (same_identifier (lit "UTF-8") (lit "utf8")
   /\ parseEncoding true (lit "UTF-8") = parseEncoding true (lit "utf8")
   /\ selection (XMLPrinter.createPrinter true
                   (XMLPrinter.XMLPrinter_new {| getEncoding := lit "UTF-8" |}))
      = selection (XMLPrinter.createPrinter true
                     (XMLPrinter.XMLPrinter_new {| getEncoding := lit "utf8" |})))
  /\
  (parseEncoding true (lit "ISO-8859-1") <> []
   /\ ~ In (parseEncoding true (lit "ISO-8859-1")) supported
   /\ XMLPrinter.createPrinter true
        (XMLPrinter.XMLPrinter_new {| getEncoding := lit "ISO-8859-1" |})
      = Some (XMLPrinter.Return false,
              XMLPrinter.XMLPrinter_new {| getEncoding := lit "ISO-8859-1" |}))
  /\
  (parseEncoding true (lit "- ") = []
   /\ XMLPrinter.createPrinter true
        (XMLPrinter.XMLPrinter_new {| getEncoding := lit "- " |})
      = Some (XMLPrinter.EndOfFunction,
              created UTF8 {| getEncoding := lit "- " |})).
Proof.
  assert (S : same_identifier (lit "UTF-8") (lit "utf8")).
  { do 3 (apply same_letter; [reflexivity|]).
    apply same_separator_l; [reflexivity|].
    apply same_letter; [reflexivity|]. apply same_end. }
  assert (E : parseEncoding true (lit "ISO-8859-1") <> []).
  { vm_compute. discriminate. }
  assert (U : ~ In (parseEncoding true (lit "ISO-8859-1")) supported).
  { vm_compute. intros H.
    repeat (destruct H as [H|H]; [discriminate H|]). exact H. }
  split; [|split].
  - split; [exact S|].
    apply (proj1 (encoding_identifier_normalized true (lit "UTF-8")
                    (lit "utf8")) S).
  - split; [exact E|]. split; [exact U|].
    apply (proj1 (proj2 (encoding_identifier_normalized true
                           (lit "ISO-8859-1") [])) E U).
  - split; [reflexivity|].
    apply (proj2 (proj2 (encoding_identifier_normalized true (lit "- ") []))).
    reflexivity.
Defined.

(** C7 as stated fails: the empty identifier has the empty normalization,
    which is not in the supported set, and yet [createPrinter] does not
    return false for it but creates the UTF-8 printer; whether [char] is
    signed makes no difference. *)
Lemma empty_identifier_selects_UTF8 :
  forallb (fun sg => CString_eqb (parseEncoding sg []) []) [true; false] = true
  /\ ~ In [] supported
  /\ XMLPrinter.createPrinter true (XMLPrinter.XMLPrinter_new {| getEncoding := [] |})
     = Some (XMLPrinter.EndOfFunction, created UTF8 {| getEncoding := [] |})
  /\ XMLPrinter.createPrinter false (XMLPrinter.XMLPrinter_new {| getEncoding := [] |})
     = Some (XMLPrinter.EndOfFunction, created UTF8 {| getEncoding := [] |}).
Proof.
  repeat split; try reflexivity.
  intros H. vm_compute in H.
  repeat (destruct H as [H|H]; [discriminate H|]). exact H.
Qed.

(** The three spellings of UTF-8 are normalized to [utf8]. *)
Example utf8_spellings :
  parseEncoding true (lit "UTF-8") = lit "utf8"
  /\ parseEncoding true (lit "utf8") = lit "utf8"
  /\ parseEncoding true (lit "UTF 8") = lit "utf8"
  /\ recognized (lit "utf8") = Some UTF8.
Proof. repeat split. Qed.

(** The identifier [ISO-8859-1] is normalized to [iso88591], which none of
    the comparisons in [createPrinter] accepts. *)
Example iso_8859_1_not_recognized :
  parseEncoding true (lit "ISO-8859-1") = lit "iso88591"
  /\ recognized (lit "iso88591") = None.
Proof. split; reflexivity. Qed.

End EncodingSamples.

(** ** More on the operations of the printing object *)

Section MoreOperations.

Variables IOCharset AppCharset : CharSet.
Variable top_success : bool.
Variable cltag0 : CString.

Local Abbreviation emit := (emit IOCharset).
Local Abbreviation transcode := (transcode IOCharset AppCharset).
Local Abbreviation attribute_escaped := (attribute_escaped IOCharset AppCharset).
Local Abbreviation content_escaped := (content_escaped IOCharset AppCharset).
Local Abbreviation exitTagContext := (exitTagContext IOCharset AppCharset).
Local Abbreviation printOpenTag := (printOpenTag IOCharset AppCharset).
Local Abbreviation printAttribute := (printAttribute IOCharset AppCharset).
Local Abbreviation printValue := (printValue IOCharset AppCharset).
Local Abbreviation printCloseTag :=
  (printCloseTag IOCharset AppCharset top_success cltag0).

Ltac close_guard :=
  unfold XMLPrinterObject.printCloseTag;
  destruct (TagStack.top _ _) as [top_rt element]; cbv zeta;
  match goal with
  | |- context [orb top_rt ?e] => destruct (orb top_rt e)
  end.

(** X8: after [exitTagContext] the state is [Content], and a second
    [exitTagContext] does nothing: it appends to the buffer at most
    once. *)
Theorem exitTagContext_idempotent (this : This) (buf : Buffer) :
  m_state (fst (exitTagContext this buf)) = Content
  /\ exitTagContext (fst (exitTagContext this buf))
                    (snd (exitTagContext this buf))
     = exitTagContext this buf.
Proof.
  rewrite (exitTagContext_emits _ _ this buf).
  destruct (m_state this) eqn:E; cbn [fst snd];
    rewrite exitTagContext_emits; cbn; rewrite ?E; auto.
Qed.

(** X7: each operation appends one string to the buffer; this string, the
    value returned and the new configuration of the printing object do
    not depend on what the buffer holds. *)
Theorem operations_append_only (this : This) (src : CString) :
  (exists rt this' out, forall buf,
      printOpenTag this src buf = (rt, this', buf ++ out))
  /\ (exists rt this' out, forall buf,
         printAttribute this src buf = (rt, this', buf ++ out))
  /\ (exists rt this' out, forall buf,
         printValue this src buf = (rt, this', buf ++ out))
  /\ (exists rt this' out, forall buf,
         printCloseTag this buf = (rt, this', buf ++ out)).
Proof.
  split; [|split; [|split]].
  - destruct (m_state this) eqn:E; do 3 eexists; intros buf;
      rewrite printOpenTag_emits, exitTagContext_emits, E; cbn [snd];
      rewrite <- ?app_assoc; reflexivity.
  - unfold XMLPrinterObject.printAttribute.
    destruct (State_eqb (m_state this) TagElement).
    + do 3 eexists. intros buf.
      rewrite printToBuffer_emits, !printToBufferChar_emits.
      rewrite <- !app_assoc. reflexivity.
    + exists false, this, []. intros buf. now rewrite app_nil_r.
  - unfold XMLPrinterObject.printValue.
    destruct (State_eqb (m_state this) TagAttribute).
    + do 3 eexists. intros buf.
      rewrite printToBufferAttributeValue_emits, printToBufferChar_emits.
      rewrite <- !app_assoc. reflexivity.
    + destruct (m_state this) eqn:E; do 3 eexists; intros buf;
        rewrite exitTagContext_emits, E, printToBufferContent_emits;
        rewrite <- ?app_assoc; reflexivity.
  - close_guard;
      [exists false, this, []; intros buf; now rewrite app_nil_r|].
    destruct (State_eqb (m_state this) TagElement).
    + do 3 eexists. intros buf. rewrite !printToBufferChar_emits.
      rewrite <- !app_assoc. reflexivity.
    + destruct (negb (State_eqb (m_state this) Content));
        [exists false, this, []; intros buf; now rewrite app_nil_r|].
      do 3 eexists. intros buf.
      rewrite printToBuffer_emits, !printToBufferChar_emits.
      rewrite <- !app_assoc. reflexivity.
Qed.

(** X10: no operation changes the declared encoding or the element output
    buffer of the printing object, and [printAttribute] and [printValue]
    leave the tag stack alone. *)
Theorem operations_preserve (this : This) (src : CString) (buf : Buffer) :
  let unchanged (r : bool * This * Buffer) :=
    m_attributes (this_of r) = m_attributes this
    /\ m_buf (this_of r) = m_buf this in
  (unchanged (printOpenTag this src buf)
   /\ m_tagstack (this_of (printOpenTag this src buf))
      = src :: m_tagstack this)
  /\ (unchanged (printAttribute this src buf)
      /\ m_tagstack (this_of (printAttribute this src buf))
         = m_tagstack this)
  /\ (unchanged (printValue this src buf)
      /\ m_tagstack (this_of (printValue this src buf)) = m_tagstack this)
  /\ unchanged (printCloseTag this buf).
Proof.
  cbv zeta. split; [|split; [|split]].
  - rewrite printOpenTag_emits. cbn. auto.
  - unfold XMLPrinterObject.printAttribute.
    destruct (State_eqb (m_state this) TagElement); cbn; auto.
  - unfold XMLPrinterObject.printValue.
    destruct (State_eqb (m_state this) TagAttribute); [cbn; auto|].
    rewrite exitTagContext_emits. destruct (m_state this); cbn; auto.
  - close_guard; [cbn; auto|].
    destruct (State_eqb (m_state this) TagElement); [cbn; auto|].
    destruct (negb (State_eqb (m_state this) Content)); cbn; auto.
Qed.

(** X11: the state [Init] is left for good: [printOpenTag] and [printValue] never
    end in it, and [printAttribute] and [printCloseTag] end in it only
    where they started in it and returned false. *)
Theorem Init_is_left_for_good (this : This) (src : CString) (buf : Buffer) :
  State_eqb (m_state (this_of (printOpenTag this src buf))) Init = false
  /\ State_eqb (m_state (this_of (printValue this src buf))) Init = false
  /\ (m_state (this_of (printAttribute this src buf)) = Init ->
      m_state this = Init /\ rt_of (printAttribute this src buf) = false)
  /\ (m_state (this_of (printCloseTag this buf)) = Init ->
      m_state this = Init /\ rt_of (printCloseTag this buf) = false).
Proof.
  split; [|split; [|split]].
  - rewrite printOpenTag_emits. reflexivity.
  - unfold XMLPrinterObject.printValue.
    destruct (State_eqb (m_state this) TagAttribute); [reflexivity|].
    rewrite exitTagContext_emits.
    destruct (m_state this) eqn:E; cbn; rewrite ?E; reflexivity.
  - unfold XMLPrinterObject.printAttribute.
    destruct (State_eqb (m_state this) TagElement); cbn;
      [discriminate | auto].
  - close_guard; [cbn; auto|].
    destruct (State_eqb (m_state this) TagElement); [cbn; discriminate|].
    destruct (negb (State_eqb (m_state this) Content)) eqn:N; cbn; auto.
    intros E. rewrite E in N. discriminate N.
Qed.

(** X13: the value returned and the new configuration of the printing object
    are the same for all character sets and all buffers: the encodings
    bear on the bytes appended only. *)
Theorem control_independent_of_charsets
    (IOCharset' AppCharset' : CharSet)
    (this : This) (src : CString) (buf buf' : Buffer) :
  let same (r r' : bool * This * Buffer) :=
    rt_of r = rt_of r' /\ this_of r = this_of r' in
  same (printOpenTag this src buf)
       (XMLPrinterObject.printOpenTag IOCharset' AppCharset' this src buf')
  /\ same (printAttribute this src buf)
          (XMLPrinterObject.printAttribute IOCharset' AppCharset' this src buf')
  /\ same (printValue this src buf)
          (XMLPrinterObject.printValue IOCharset' AppCharset' this src buf')
  /\ same (printCloseTag this buf)
          (XMLPrinterObject.printCloseTag IOCharset' AppCharset'
             top_success cltag0 this buf').
Proof.
  cbv zeta. split; [|split; [|split]].
  - rewrite !printOpenTag_emits. split; reflexivity.
  - unfold XMLPrinterObject.printAttribute.
    destruct (State_eqb (m_state this) TagElement); split; reflexivity.
  - unfold XMLPrinterObject.printValue.
    destruct (State_eqb (m_state this) TagAttribute); [split; reflexivity|].
    rewrite !exitTagContext_emits. destruct (m_state this); split; reflexivity.
  - close_guard; [split; reflexivity|].
    destruct (State_eqb (m_state this) TagElement); [split; reflexivity|].
    destruct (negb (State_eqb (m_state this) Content)); split; reflexivity.
Qed.

Ltac on_state :=
  cbn [m_state m_buf m_tagstack m_attributes State_eqb negb fst snd
       set_state set_tagstack TagStack.top TagStack.pop TagStack.push
       hd_error tl length Nat.eqb].

(** X12: in a configuration reached from the construction of the printing
    object, state [Init] goes with an empty tag stack. *)
Theorem Init_has_empty_tag_stack (this : This) :
  reachable IOCharset AppCharset top_success this ->
  m_state this = Init -> m_tagstack this = [].
Proof.
  induction 1 as [a | this src buf R IH | this src buf R IH
                 | this src buf R IH | cltag this buf R IH].
  - reflexivity.
  - rewrite printOpenTag_emits. discriminate.
  - unfold XMLPrinterObject.printAttribute.
    destruct (State_eqb (m_state this) TagElement); [discriminate|exact IH].
  - unfold XMLPrinterObject.printValue.
    destruct (State_eqb (m_state this) TagAttribute); [discriminate|].
    rewrite exitTagContext_emits.
    destruct (m_state this) eqn:E; unfold this_of; on_state;
      rewrite ?E; discriminate.
  - close_guard; [exact IH|].
    destruct (State_eqb (m_state this) TagElement); [discriminate|].
    destruct (State_eqb (m_state this) Content) eqn:C; [|exact IH].
    apply State_eqb_eq in C. unfold this_of. on_state. rewrite C.
    discriminate.
Qed.

End MoreOperations.

(** ** More on escaping *)

Section MoreEscaping.

Variable IOCharset : CharSet.

Local Abbreviation L1 := charset.IsoLatin1.

Ltac each_char c :=
  destruct c as [[] [] [] [] [] [] [] []].

Lemma printToBuffer_NUL (a b : CString) (buf : Buffer) :
  printToBuffer IOCharset L1 (a ++ NUL :: b) buf
  = printToBuffer IOCharset L1 a buf.
Proof.
  revert buf. induction a as [|c a IH]; intros buf.
  - rewrite (printToBuffer_eq _ _ ([] ++ NUL :: b)), (printToBuffer_eq _ _ []).
    reflexivity.
  - rewrite (printToBuffer_eq _ _ ((c :: a) ++ NUL :: b)),
            (printToBuffer_eq _ _ (c :: a)).
    cbn [value skip L1 charset.IsoLatin1 app tl].
    destruct (N.eqb (N_of_ascii c) 0); [reflexivity|]. apply IH.
Qed.

(** X17: a string is printed up to its first NUL only. A tag name with a NUL in
    it is written shortened by [printOpenTag], and pushed as a whole. *)
Theorem printing_ends_at_NUL (this : This) (a b : CString) (buf : Buffer) :
  transcode IOCharset L1 (a ++ NUL :: b) = transcode IOCharset L1 a
  /\ buf_of (printOpenTag IOCharset L1 this (a ++ NUL :: b) buf)
     = buf_of (printOpenTag IOCharset L1 this a buf)
  /\ m_tagstack (this_of (printOpenTag IOCharset L1 this (a ++ NUL :: b) buf))
     = (a ++ NUL :: b) :: m_tagstack this.
Proof.
  split; [apply printToBuffer_NUL|].
  rewrite !printOpenTag_emits. unfold buf_of, this_of, transcode. cbn.
  now rewrite printToBuffer_NUL.
Qed.

Lemma printToBufferSubstChr_app (a b : CString) buf nof_echr echr estr :
  ~ In NUL a ->
  printToBufferSubstChr IOCharset L1 (a ++ b) buf nof_echr echr estr
  = printToBufferSubstChr IOCharset L1 b
      (printToBufferSubstChr IOCharset L1 a buf nof_echr echr estr)
      nof_echr echr estr.
Proof.
  revert buf. induction a as [|c a IH]; intros buf N.
  - rewrite (printToBufferSubstChr_eq _ _ []). reflexivity.
  - rewrite (printToBufferSubstChr_eq _ _ ((c :: a) ++ b)),
            (printToBufferSubstChr_eq _ _ (c :: a)).
    cbn [value skip L1 charset.IsoLatin1 app tl].
    destruct (N.eqb (N_of_ascii c) 0) eqn:Z.
    + exfalso. apply N. left. apply N_of_ascii_NUL. now apply N.eqb_eq.
    + apply IH. intros I. apply N. now right.
Qed.

(** X19: with a scanner that yields the bytes as they are (ISO-8859-1 as
    [AppCharset]), escaping goes along with concatenation as long as the
    first part holds no NUL; so two [printValue] in a row, outside of an
    attribute, write what one [printValue] of the concatenated value
    writes. *)
Theorem printValue_concatenates (this : This) (a b : CString) (buf : Buffer) :
  ~ In NUL a -> m_state this <> TagAttribute ->
  (attribute_escaped IOCharset L1 (a ++ b)
   = attribute_escaped IOCharset L1 a ++ attribute_escaped IOCharset L1 b
   /\ content_escaped IOCharset L1 (a ++ b)
      = content_escaped IOCharset L1 a ++ content_escaped IOCharset L1 b)
  /\ (let r1 := printValue IOCharset L1 this a buf in
      printValue IOCharset L1 (this_of r1) b (buf_of r1)
      = printValue IOCharset L1 this (a ++ b) buf).
Proof.
  intros N E.
  assert (A : forall nof_echr echr estr,
    printToBufferSubstChr IOCharset L1 (a ++ b) [] nof_echr echr estr
    = printToBufferSubstChr IOCharset L1 a [] nof_echr echr estr
      ++ printToBufferSubstChr IOCharset L1 b [] nof_echr echr estr).
  { intros. rewrite (@printToBufferSubstChr_app a b [] nof_echr echr estr N).
    rewrite <- (app_nil_r (printToBufferSubstChr _ _ a _ _ _ _)) at 1.
    apply printToBufferSubstChr_prefix. }
  split; [split; apply A|].
  cbv zeta. unfold XMLPrinterObject.printValue.
  apply State_eqb_neq in E. rewrite E.
  rewrite exitTagContext_emits.
  destruct (m_state this) eqn:S; try discriminate E;
    unfold this_of, buf_of; cbn [fst snd set_state m_state State_eqb];
    rewrite ?S; cbn [State_eqb];
    rewrite ?exitTagContext_emits; cbn [m_state set_state]; rewrite ?S;
    rewrite !printToBufferContent_emits;
    unfold content_escaped; rewrite A, <- !app_assoc; reflexivity.
Qed.

End MoreEscaping.

Section EscapedOutput.

Local Abbreviation L1 := charset.IsoLatin1.

Ltac each_char c :=
  destruct c as [[] [] [] [] [] [] [] []].

Lemma escaped_char_not_special (c : ascii) :
  forallb (fun x => negb (attribute_special x))
          (escaped_char L1 attribute_value_table c) = true
  /\ forallb (fun x => negb (content_special x))
             (escaped_char L1 content_table c) = true.
Proof. each_char c; split; reflexivity. Qed.

Lemma printToBufferSubstChr_keeps
    (P : ascii -> bool) (table : list (ascii * CString))
    (src : CString) buf nof_echr echr estr :
  (forall c b,
     (if (N_of_ascii c <? 128)%N
      then printEsc L1 (char_of_uchar (N_of_ascii c)) b nof_echr echr estr
      else print L1 (N_of_ascii c) b)
     = b ++ escaped_char L1 table c) ->
  (forall c, forallb P (escaped_char L1 table c) = true) ->
  forallb P buf = true ->
  forallb P (printToBufferSubstChr L1 L1 src buf nof_echr echr estr) = true.
Proof.
  intros E C. revert buf. induction src as [|c src IH]; intros buf B.
  - rewrite printToBufferSubstChr_eq. exact B.
  - rewrite printToBufferSubstChr_eq.
    cbn [value skip L1 charset.IsoLatin1 tl].
    destruct (N.eqb (N_of_ascii c) 0); [exact B|].
    apply IH. rewrite E, forallb_app, B, C. reflexivity.
Qed.

(** X20: with ISO-8859-1 on both sides, a value is written between two double
    quotes without any of [<], [>], ['], the double quote, NUL, BS, TAB, LF
    and CR in between, and content is written without any of [<], [>],
    NUL and BS, whatever the value holds. *)
Theorem escaped_output_has_no_special (src : CString) (buf : Buffer) :
  printToBufferAttributeValue L1 L1 src buf
  = buf ++ [DQUOTE] ++ attribute_escaped L1 L1 src ++ [DQUOTE]
  /\ forallb (fun x => negb (attribute_special x))
             (attribute_escaped L1 L1 src) = true
  /\ forallb (fun x => negb (content_special x))
             (content_escaped L1 L1 src) = true.
Proof.
  split; [apply printToBufferAttributeValue_emits|]. split.
  - apply (@printToBufferSubstChr_keeps _ attribute_value_table);
      [apply substitution_step_attribute_value
      | apply escaped_char_not_special | reflexivity].
  - apply (@printToBufferSubstChr_keeps _ content_table);
      [apply substitution_step_content
      | apply escaped_char_not_special | reflexivity].
Qed.

Lemma escaped_char_plain (c : ascii) :
  plain_char c = true ->
  c <> NUL
  /\ escaped_char L1 attribute_value_table c = [c]
  /\ escaped_char L1 content_table c = [c].
Proof.
  each_char c; intros H; try discriminate H;
    (split; [discriminate | split; reflexivity]).
Qed.

(** X21: with ISO-8859-1 on both sides, a value made of characters that the
    escaping tables do not list is written as it is, as attribute value
    and as content. *)
Theorem plain_text_is_written_unchanged (src : CString) :
  forallb plain_char src = true ->
  attribute_escaped L1 L1 src = src /\ content_escaped L1 L1 src = src.
Proof.
  intros P.
  assert (N : ~ In NUL src).
  { intros I. rewrite forallb_forall in P. apply P in I. discriminate I. }
  assert (S : forall table,
    (forall c, plain_char c = true -> escaped_char L1 table c = [c]) ->
    escaped_string L1 table src = src).
  { intros table T. unfold escaped_string. clear N.
    induction src as [|c src IH]; [reflexivity|].
    cbn [forallb] in P. apply andb_true_iff in P as [Pc P].
    cbn [flat_map]. rewrite (T c Pc), (IH P). reflexivity. }
  destruct (@escaping_without_NUL L1 src N) as [-> ->].
  split; apply S; intros c Pc; apply (escaped_char_plain c Pc).
Qed.

End EscapedOutput.

(** ** More on encoding identifiers *)

Section MoreEncoding.

Variable char_is_signed : bool.

Import XMLPrinterBase.

Local Abbreviation parseEncoding := (parseEncoding char_is_signed).
Local Abbreviation createPrinter := (XMLPrinter.createPrinter char_is_signed).
Local Abbreviation normalized := (normalized_char char_is_signed).

Ltac each_char c :=
  destruct c as [[] [] [] [] [] [] [] []].

Lemma folded_normalized (c : ascii) :
  dropped char_is_signed c = false ->
  normalized (folded char_is_signed c) = true.
Proof.
  destruct char_is_signed; each_char c; intros H; try discriminate H;
    reflexivity.
Qed.

Lemma normalized_kept (c : ascii) :
  normalized c = true ->
  dropped char_is_signed c = false /\ folded char_is_signed c = c.
Proof.
  destruct char_is_signed; each_char c; intros H; try discriminate H;
    split; reflexivity.
Qed.

Lemma parseEncoding_normalized (src : CString) :
  forallb normalized (parseEncoding src) = true.
Proof.
  induction src as [|cc rest IH]; [reflexivity|].
  rewrite parseEncoding_cons.
  destruct (dropped char_is_signed cc) eqn:D; [exact IH|].
  cbn [forallb]. now rewrite (folded_normalized cc D), IH.
Qed.

Lemma parseEncoding_of_normalized (src : CString) :
  forallb normalized src = true -> parseEncoding src = src.
Proof.
  induction src as [|cc rest IH]; [reflexivity|].
  cbn [forallb]. intros H. apply andb_true_iff in H as [Hc H].
  destruct (normalized_kept cc Hc) as [D F].
  now rewrite parseEncoding_cons, D, F, (IH H).
Qed.

(** X1: the string that [parseEncoding] stores holds no character up to the
    space in the order of [char], no hyphen and no upper case letter, and
    [parseEncoding] applied to it gives it back. *)
Theorem parseEncoding_normal_form (src : CString) :
  forallb normalized (parseEncoding src) = true
  /\ parseEncoding (parseEncoding src) = parseEncoding src.
Proof.
  split; [apply parseEncoding_normalized|].
  apply parseEncoding_of_normalized, parseEncoding_normalized.
Qed.

(** X2: [parseEncoding] stores an identifier as it is if all its characters
    are above the space in the order of [char] and neither hyphens nor upper
    case letters. *)
Theorem parseEncoding_keeps_normalized (src : CString) :
  forallb normalized src = true -> parseEncoding src = src.
Proof. apply parseEncoding_of_normalized. Qed.

(** X3: [parseEncoding] works character by character: the result for a
    concatenation is the concatenation of the results, and it is never
    longer than the identifier. *)
Theorem parseEncoding_app (s t : CString) :
  parseEncoding (s ++ t) = parseEncoding s ++ parseEncoding t
  /\ (length (parseEncoding s) <= length s)%nat.
Proof.
  split.
  - induction s as [|cc rest IH]; [reflexivity|].
    cbn [app]. rewrite !parseEncoding_cons, IH.
    destruct (dropped char_is_signed cc); reflexivity.
  - induction s as [|cc rest IH]; [cbn; lia|].
    rewrite parseEncoding_cons.
    destruct (dropped char_is_signed cc); cbn [length]; lia.
Qed.

Lemma recognized_supported (enc : CString) :
  enc = [] \/ In enc supported -> recognized enc <> None.
Proof.
  intros [->|I]; [discriminate|].
  cbn in I.
  repeat (destruct I as [<-|I]; [discriminate|]). destruct I.
Qed.

(** X4: [createPrinter] returns false exactly for the identifiers whose
    normalization is neither empty nor in the supported set; it leaves the
    printer without printing object then. *)
Theorem createPrinter_fails_iff (this : XMLPrinter.XMLPrinter) :
  let enc := parseEncoding (getEncoding (XMLPrinter.m_attributes this)) in
  createPrinter this = Some (XMLPrinter.Return false, not_created this)
  <-> enc <> [] /\ ~ In enc supported.
Proof.
  cbv zeta. rewrite createPrinter_recognized. split.
  - intros H.
    destruct (recognized
                (parseEncoding (getEncoding (XMLPrinter.m_attributes this))))
      eqn:R; [discriminate H|].
    split; intros I; apply (@recognized_supported _ (or_intror I) R)
                     || apply (@recognized_supported _ (or_introl I) R).
  - intros [E S]. now rewrite (not_recognized E S).
Qed.

(** X5: an identifier that is normalized to [iso8859] or [isolatin] followed
    by anything, a code page number for instance, is not accepted:
    [createPrinter] returns false for it. *)
Theorem createPrinter_rejects_suffix
    (this : XMLPrinter.XMLPrinter) (suffix : CString) :
  suffix <> [] ->
  parseEncoding (getEncoding (XMLPrinter.m_attributes this))
  = lit "iso8859" ++ suffix
  \/ parseEncoding (getEncoding (XMLPrinter.m_attributes this))
     = lit "isolatin" ++ suffix ->
  createPrinter this = Some (XMLPrinter.Return false, not_created this).
Proof.
  intros N E. rewrite createPrinter_recognized.
  rewrite not_recognized; [reflexivity| |].
  - destruct E as [-> | ->]; discriminate.
  - intros I. cbn in I.
    destruct E as [E|E]; rewrite E in I; cbn in I;
      repeat (destruct I as [I|I]; [congruence|]); exact I.
Qed.

End MoreEncoding.

(** ** The public operations of the printer *)

Section PublicOperationsFacts.

Variable char_is_signed : bool.
Variable io_charset : XMLPrinterBase.Codec -> CharSet.
Variable AppCharset : CharSet.
Variable top_success : bool.
Variable cltag0 : CString.

Local Abbreviation enc_of this :=
  (XMLPrinterBase.parseEncoding char_is_signed
     (getEncoding (XMLPrinter.m_attributes this))).

Lemma guard_without_object (this : XMLPrinter.XMLPrinter) :
  XMLPrinter.m_obj this = None ->
  XMLPrinter.guard char_is_signed this
  = match recognized (enc_of this) with
    | Some _ => XMLPrinter.NoResult
    | None => XMLPrinter.Leave this
    end.
Proof.
  intros O. unfold XMLPrinter.guard.
  rewrite O, createPrinter_recognized.
  destruct (recognized (enc_of this)); [reflexivity|].
  destruct this as [mt obj a]. cbn in O. subst obj. reflexivity.
Qed.

(** X6: On a printer that has no printing object yet, each of the four public
    operations returns false, appends nothing and leaves the printer
    without printing object if the declared encoding is not recognized; if
    it is recognized, the operation has no defined result, because the
    [createPrinter] it calls ends without a return value. *)
Theorem operations_without_object
    (this : XMLPrinter.XMLPrinter) (src : CString) (buf : Buffer) :
  XMLPrinter.m_obj this = None ->
  let results :=
    [XMLPrinter.printOpenTag char_is_signed io_charset AppCharset this src buf;
     XMLPrinter.printCloseTag char_is_signed io_charset AppCharset
       top_success cltag0 this src buf;
     XMLPrinter.printAttribute char_is_signed io_charset AppCharset this src buf;
     XMLPrinter.printValue char_is_signed io_charset AppCharset this src buf] in
  (recognized (enc_of this) = None ->
   forall r, In r results -> r = Some (false, this, buf))
  /\ (forall codec, recognized (enc_of this) = Some codec ->
      forall r, In r results -> r = None).
Proof.
  intros O. cbv zeta.
  unfold XMLPrinter.printOpenTag, XMLPrinter.printCloseTag,
    XMLPrinter.printAttribute, XMLPrinter.printValue.
  rewrite (guard_without_object this O).
  split; [intros R | intros codec R]; rewrite R; intros r I; cbn in I;
    repeat (destruct I as [<-|I]; [reflexivity|]); destruct I.
Qed.

End PublicOperationsFacts.

(** ** The further properties on sample inputs *)

Section MoreSamples.

Local Abbreviation L1 := charset.IsoLatin1.

Lemma Init_is_left_for_good_witness :
  (m_state (this_of (printAttribute L1 L1 fresh (lit "k") [])) = Init
   /\ m_state fresh = Init
   /\ rt_of (printAttribute L1 L1 fresh (lit "k") []) = false)
  /\ (m_state (this_of (printCloseTag L1 L1 true (lit "a") fresh [])) = Init
      /\ m_state fresh = Init
      /\ rt_of (printCloseTag L1 L1 true (lit "a") fresh []) = false).
Proof.
  split; (split; [reflexivity|]).
  - apply (proj1 (proj2 (proj2
             (Init_is_left_for_good L1 L1 true (lit "a") fresh (lit "k") [])))).
    reflexivity.
  - apply (proj2 (proj2 (proj2
             (Init_is_left_for_good L1 L1 true (lit "a") fresh (lit "k") [])))).
    reflexivity.
Defined.

Lemma Init_has_empty_tag_stack_witness :
  reachable L1 L1 true (this_of (printAttribute L1 L1 fresh (lit "k") []))
  /\ m_state (this_of (printAttribute L1 L1 fresh (lit "k") [])) = Init
  /\ m_tagstack (this_of (printAttribute L1 L1 fresh (lit "k") [])) = [].
Proof.
  assert (R : reachable L1 L1 true
                (this_of (printAttribute L1 L1 fresh (lit "k") []))).
  { apply reach_printAttribute, reach_new. }
  split; [exact R|]. split; [reflexivity|].
  apply (Init_has_empty_tag_stack R). reflexivity.
Defined.

Lemma printValue_concatenates_witness :
  ~ In NUL (lit "a<") /\ m_state opened <> TagAttribute
  /\ (attribute_escaped L1 L1 (lit "a<" ++ lit "b")
      = attribute_escaped L1 L1 (lit "a<") ++ attribute_escaped L1 L1 (lit "b")
      /\ content_escaped L1 L1 (lit "a<" ++ lit "b")
         = content_escaped L1 L1 (lit "a<") ++ content_escaped L1 L1 (lit "b"))
  /\ (let r1 := printValue L1 L1 opened (lit "a<") [] in
      printValue L1 L1 (this_of r1) (lit "b") (buf_of r1)
      = printValue L1 L1 opened (lit "a<" ++ lit "b") []).
Proof.
  assert (N : ~ In NUL (lit "a<")).
  { intros I. cbn in I. repeat (destruct I as [I|I]; [discriminate I|]).
    exact I. }
  assert (E : m_state opened <> TagAttribute) by (vm_compute; discriminate).
  split; [exact N|]. split; [exact E|].
  apply (@printValue_concatenates L1 opened (lit "a<") (lit "b") [] N E).
Defined.

Lemma plain_text_is_written_unchanged_witness :
  forallb plain_char (lit "plain text") = true
  /\ attribute_escaped L1 L1 (lit "plain text") = lit "plain text"
  /\ content_escaped L1 L1 (lit "plain text") = lit "plain text".
Proof.
  split; [reflexivity|].
  apply (@plain_text_is_written_unchanged (lit "plain text")). reflexivity.
Defined.

Lemma transcode_IsoLatin1_witness :
  ~ In NUL (lit "name") /\ transcode L1 L1 (lit "name") = lit "name".
Proof.
  assert (N : ~ In NUL (lit "name")).
  { intros I. cbn in I. repeat (destruct I as [I|I]; [discriminate I|]).
    exact I. }
  split; [exact N|]. apply (@transcode_IsoLatin1 (lit "name") N).
Defined.

Lemma substitute_defined_witness :
  (memchr attr_echr CR attr_nof_echr = Some 9%nat
   /\ nth 9 attr_estr None <> None)
  /\ (memchr content_echr BS content_nof_echr = Some 4%nat
      /\ nth 4 content_estr None <> None).
Proof.
  split; (split; [reflexivity|]).
  - apply (proj1 (substitute_defined CR) 9%nat). reflexivity.
  - apply (proj2 (substitute_defined BS) 4%nat). reflexivity.
Defined.

Lemma parseEncoding_keeps_normalized_witness :
  forallb (normalized_char true) (lit "utf16le") = true
  /\ XMLPrinterBase.parseEncoding true (lit "utf16le") = lit "utf16le".
Proof.
  split; [reflexivity|].
  apply (@parseEncoding_keeps_normalized true (lit "utf16le")). reflexivity.
Defined.

Lemma createPrinter_fails_iff_witness :
  let latin9 := XMLPrinter.XMLPrinter_new {| getEncoding := lit "Latin-9" |} in
  let enc := XMLPrinterBase.parseEncoding true (lit "Latin-9") in
  (enc <> [] /\ ~ In enc supported
   /\ XMLPrinter.createPrinter true latin9
      = Some (XMLPrinter.Return false, not_created latin9))
  /\ (XMLPrinter.createPrinter true latin9
      = Some (XMLPrinter.Return false, not_created latin9)
      /\ enc <> [] /\ ~ In enc supported).
Proof.
  cbv zeta.
  assert (E : XMLPrinterBase.parseEncoding true (lit "Latin-9") <> []).
  { vm_compute. discriminate. }
  assert (S : ~ In (XMLPrinterBase.parseEncoding true (lit "Latin-9"))
                supported).
  { vm_compute. intros I.
    repeat (destruct I as [I|I]; [discriminate I|]). exact I. }
  split.
  - split; [exact E|]. split; [exact S|].
    apply (proj2 (createPrinter_fails_iff true
                    (XMLPrinter.XMLPrinter_new
                       {| getEncoding := lit "Latin-9" |}))).
    split; [exact E | exact S].
  - split; [reflexivity|].
    apply (proj1 (createPrinter_fails_iff true
                    (XMLPrinter.XMLPrinter_new
                       {| getEncoding := lit "Latin-9" |}))).
    reflexivity.
Defined.

Lemma createPrinter_rejects_suffix_witness :
  let iso := XMLPrinter.XMLPrinter_new {| getEncoding := lit "ISO-8859-1" |} in
  lit "1" <> []
  /\ (XMLPrinterBase.parseEncoding true
        (getEncoding (XMLPrinter.m_attributes iso)) = lit "iso8859" ++ lit "1"
      \/ XMLPrinterBase.parseEncoding true
           (getEncoding (XMLPrinter.m_attributes iso))
         = lit "isolatin" ++ lit "1")
  /\ XMLPrinter.createPrinter true iso
     = Some (XMLPrinter.Return false, not_created iso).
Proof.
  cbv zeta.
  assert (N : lit "1" <> []) by discriminate.
  split; [exact N|]. split; [left; reflexivity|].
  apply (@createPrinter_rejects_suffix true
           (XMLPrinter.XMLPrinter_new {| getEncoding := lit "ISO-8859-1" |})
           (lit "1") N).
  left. reflexivity.
Defined.

Lemma operations_without_object_witness :
  let io := fun _ : XMLPrinterBase.Codec => L1 in
  let latin9 := XMLPrinter.XMLPrinter_new {| getEncoding := lit "Latin-9" |} in
  let utf8 := XMLPrinter.XMLPrinter_new {| getEncoding := lit "UTF-8" |} in
  (XMLPrinter.m_obj latin9 = None
   /\ recognized (XMLPrinterBase.parseEncoding true (lit "Latin-9")) = None
   /\ XMLPrinter.printOpenTag true io L1 latin9 (lit "a") []
      = Some (false, latin9, []))
  /\ (XMLPrinter.m_obj utf8 = None
      /\ recognized (XMLPrinterBase.parseEncoding true (lit "UTF-8"))
         = Some XMLPrinterBase.UTF8
      /\ XMLPrinter.printValue true io L1 utf8 (lit "x") [] = None).
Proof.
  cbv zeta. split; (split; [reflexivity|]); (split; [reflexivity|]).
  - apply (proj1 (@operations_without_object true (fun _ => L1) L1 true []
             (XMLPrinter.XMLPrinter_new {| getEncoding := lit "Latin-9" |})
             (lit "a") [] eq_refl) eq_refl).
    left. reflexivity.
  - apply (proj2 (@operations_without_object true (fun _ => L1) L1 true []
             (XMLPrinter.XMLPrinter_new {| getEncoding := lit "UTF-8" |})
             (lit "x") [] eq_refl) XMLPrinterBase.UTF8 eq_refl).
    right. right. right. left. reflexivity.
Defined.

End MoreSamples.

(** ** The output, character by character *)

Section Decoded.

Variables IOCharset AppCharset : CharSet.

Lemma before_NUL_without (chars : list UChar) :
  ~ In 0%N chars -> before_NUL chars = chars.
Proof.
  induction chars as [|ch rest IH]; intros N; [reflexivity|].
  cbn [before_NUL]. destruct (N.eqb ch 0) eqn:Z.
  - exfalso. apply N. left. now apply N.eqb_eq.
  - rewrite IH; [reflexivity|]. intros I. apply N. now right.
Qed.

(** Induction along the scanner: from a string to what follows its first
    character. *)
Lemma scanner_ind (P : CString -> Prop) :
  P [] ->
  (forall c s, P (skip AppCharset (c :: s)) -> P (c :: s)) ->
  forall src, P src.
Proof.
  intros P0 PS src.
  assert (G : forall n src, (length src <= n)%nat -> P src).
  { induction n as [|n IH]; intros [|c s] L; try exact P0.
    - cbn in L. lia.
    - apply PS, IH. pose proof (skip_consumes AppCharset c s).
      cbn in L. lia. }
  apply (G (length src)). lia.
Qed.

(** [printToBuffer] appends the encoding of the characters of the string
    that stand before its first NUL. *)
Lemma printToBuffer_decoded (src : CString) (buf : Buffer) :
  printToBuffer IOCharset AppCharset src buf
  = buf ++ encoded IOCharset (before_NUL (decode AppCharset src)).
Proof.
  revert buf. induction src as [|c s IH] using scanner_ind; intros buf.
  - rewrite printToBuffer_eq, value_end. cbn. now rewrite app_nil_r.
  - rewrite printToBuffer_eq. simp decode. cbn [before_NUL].
    destruct (N.eqb (value AppCharset (c :: s)) 0).
    + cbn. now rewrite app_nil_r.
    + rewrite IH. unfold print, encoded. cbn [flat_map].
      now rewrite <- app_assoc.
Qed.

(** The loop of [printToBufferSubstChr], with tables that replace what
    [table] says, appends the characters before the first NUL escaped by
    [table]. *)
Lemma printToBufferSubstChr_decoded
    (table : list (ascii * CString)) (src : CString) (buf : Buffer)
    nof_echr echr estr :
  (forall c, substitute nof_echr echr estr c = replacement table c) ->
  printToBufferSubstChr IOCharset AppCharset src buf nof_echr echr estr
  = buf ++ escaped IOCharset table (before_NUL (decode AppCharset src)).
Proof.
  intros T. revert buf.
  induction src as [|c s IH] using scanner_ind; intros buf.
  - rewrite printToBufferSubstChr_eq, value_end. cbn. now rewrite app_nil_r.
  - rewrite printToBufferSubstChr_eq. simp decode. cbn [before_NUL].
    destruct (N.eqb (value AppCharset (c :: s)) 0).
    + cbn. now rewrite app_nil_r.
    + rewrite IH. unfold escaped. cbn [flat_map]. rewrite app_assoc.
      f_equal. unfold escaped_scalar.
      destruct (value AppCharset (c :: s) <? 128)%N; [|reflexivity].
      rewrite printEsc_emits, T. reflexivity.
Qed.

Lemma printToBufferAttributeValue_decoded (src : CString) (buf : Buffer) :
  printToBufferAttributeValue IOCharset AppCharset src buf
  = buf ++ emit IOCharset DQUOTE
        ++ escaped IOCharset attribute_value_table
             (before_NUL (decode AppCharset src))
        ++ emit IOCharset DQUOTE.
Proof.
  unfold printToBufferAttributeValue.
  rewrite (printToBufferSubstChr_decoded attribute_value_table);
    [|apply substitute_attribute_value].
  unfold print, emit. now rewrite <- !app_assoc.
Qed.

Lemma printToBufferContent_decoded (src : CString) (buf : Buffer) :
  printToBufferContent IOCharset AppCharset src buf
  = buf ++ escaped IOCharset content_table
             (before_NUL (decode AppCharset src)).
Proof.
  unfold printToBufferContent.
  apply (printToBufferSubstChr_decoded content_table).
  apply substitute_content.
Qed.

Lemma transcode_decoded (src : CString) :
  transcode IOCharset AppCharset src
  = encoded IOCharset (before_NUL (decode AppCharset src)).
Proof. unfold transcode. now rewrite printToBuffer_decoded. Qed.

Local Abbreviation emit := (emit IOCharset).
Local Abbreviation encoded := (encoded IOCharset).
Local Abbreviation escaped := (escaped IOCharset).
Local Abbreviation decode := (decode AppCharset).
Local Abbreviation printOpenTag := (printOpenTag IOCharset AppCharset).
Local Abbreviation printAttribute := (printAttribute IOCharset AppCharset).
Local Abbreviation printValue := (printValue IOCharset AppCharset).

(** C1 (as amended): for a value without NUL, [printValue] in state
    [TagAttribute] appends a space and then the value between double quotes
    with attribute-value escaping, and nothing else, and the state becomes
    [TagElement]; in state [TagElement] it appends [>] and in state
    [Content] nothing before it appends the value with content escaping, and
    the state is [Content]. *)
Theorem printValue_emits (this : This) (src : CString) (buf : Buffer) :
  ~ In 0%N (decode src) ->
  (m_state this = TagAttribute ->
   buf_of (printValue this src buf)
   = buf ++ emit " " ++ emit DQUOTE
         ++ escaped attribute_value_table (decode src) ++ emit DQUOTE
   /\ this_of (printValue this src buf) = set_state this TagElement)
  /\
  (m_state this = TagElement ->
   buf_of (printValue this src buf)
   = buf ++ emit ">" ++ escaped content_table (decode src)
   /\ this_of (printValue this src buf) = set_state this Content)
  /\
  (m_state this = Content ->
   buf_of (printValue this src buf)
   = buf ++ escaped content_table (decode src)
   /\ this_of (printValue this src buf) = this).
Proof.
  intros N. unfold XMLPrinterObject.printValue.
  split; [|split]; intros E; rewrite E; cbn [State_eqb].
  - rewrite printToBufferAttributeValue_decoded, printToBufferChar_emits.
    rewrite (before_NUL_without _ N).
    unfold buf_of, this_of; cbn. now rewrite <- !app_assoc.
  - rewrite exitTagContext_emits, E, printToBufferContent_decoded.
    rewrite (before_NUL_without _ N).
    unfold buf_of, this_of; cbn. now rewrite <- !app_assoc.
  - rewrite exitTagContext_emits, E, printToBufferContent_decoded.
    rewrite (before_NUL_without _ N).
    unfold buf_of, this_of; cbn. auto.
Qed.

(** C5 (as amended): [printAttribute] returns true exactly in state
    [TagElement]; there it appends a space, the characters of the name that
    stand before its first NUL (the whole name if there is none) and [=],
    and the state becomes [TagAttribute]; in every other state it returns
    false, the buffer and the printing object are as before. *)
Theorem printAttribute_emits (this : This) (src : CString) (buf : Buffer) :
  (rt_of (printAttribute this src buf) = true <-> m_state this = TagElement)
  /\
  (m_state this = TagElement ->
   printAttribute this src buf
   = (true, set_state this TagAttribute,
      buf ++ emit " " ++ encoded (before_NUL (decode src)) ++ emit "="))
  /\
  (m_state this <> TagElement ->
   printAttribute this src buf = (false, this, buf)).
Proof.
  unfold XMLPrinterObject.printAttribute. split; [|split].
  - destruct (m_state this); cbn; split; congruence.
  - intros ->. cbn [State_eqb].
    rewrite printToBuffer_decoded, !printToBufferChar_emits.
    now rewrite <- !app_assoc.
  - intros E. apply State_eqb_neq in E. rewrite E. reflexivity.
Qed.

End Decoded.

(** ** Closing a tag, and sequences of operations *)

Section Closing.

Variables IOCharset AppCharset : CharSet.
Variable top_success : bool.
Variable cltag0 : CString.

Local Abbreviation emit := (emit IOCharset).
Local Abbreviation encoded := (encoded IOCharset).
Local Abbreviation escaped := (escaped IOCharset).
Local Abbreviation decode := (decode AppCharset).
Local Abbreviation printOpenTag := (printOpenTag IOCharset AppCharset).
Local Abbreviation printAttribute := (printAttribute IOCharset AppCharset).
Local Abbreviation printValue := (printValue IOCharset AppCharset).

(** C4 (the code at its failing inputs): with the boolean result of
    [TagStack::top] read as true when there is a top, [printCloseTag]
    returns false, appends nothing and pops nothing whenever the tag stack
    is not empty, in every state; under either reading it does so when the
    name on top of the tag stack is empty. *)
Theorem printCloseTag_fails_with_open_tag (this : This) (buf : Buffer) :
  (m_tagstack this <> [] ->
   printCloseTag IOCharset AppCharset true cltag0 this buf
   = (false, this, buf))
  /\
  (forall rest, m_tagstack this = [] :: rest ->
   printCloseTag IOCharset AppCharset top_success cltag0 this buf
   = (false, this, buf)).
Proof.
  unfold XMLPrinterObject.printCloseTag. split.
  - destruct (m_tagstack this) as [|name rest]; [congruence|]. reflexivity.
  - intros rest ->. cbn. now rewrite orb_true_r.
Qed.

(** With the boolean result of [TagStack::top] read the other way, as true
    on an empty stack, [printCloseTag] closes the tag of a nonempty name:
    [/>] in state [TagElement], the closing tag of the name in state
    [Content]; it pops the name and returns true; on an empty stack it
    returns false. *)
Lemma printCloseTag_with_top_true_on_empty
    (this : This) (buf : Buffer) (name : CString) (rest : TagStack.t) :
  (m_tagstack this = name :: rest -> name <> [] ->
   (m_state this = TagElement ->
    printCloseTag IOCharset AppCharset false cltag0 this buf
    = (true, set_tagstack (set_state this Content) rest,
       buf ++ emit "/" ++ emit ">"))
   /\
   (m_state this = Content ->
    printCloseTag IOCharset AppCharset false cltag0 this buf
    = (true, set_tagstack this rest,
       buf ++ emit "<" ++ emit "/"
           ++ encoded (before_NUL (decode name)) ++ emit ">")))
  /\
  (m_tagstack this = [] ->
   printCloseTag IOCharset AppCharset false cltag0 this buf
   = (false, this, buf)).
Proof.
  unfold XMLPrinterObject.printCloseTag. split.
  - intros S N. rewrite S. cbn [TagStack.top negb orb].
    destruct name as [|c name]; [contradiction|]. cbn [length Nat.eqb].
    split; intros E; rewrite E; cbn [State_eqb negb];
      rewrite ?printToBuffer_decoded, !printToBufferChar_emits;
      cbn [set_state m_tagstack]; rewrite ?S; cbn [TagStack.pop tl];
      now rewrite <- !app_assoc.
  - intros ->. reflexivity.
Qed.

(** X9: [printCloseTag] returns true only from state [TagElement] or
    [Content] and never with an empty name on top of the tag stack, and the
    state is [Content] afterwards; this does not depend on what the boolean
    result of [TagStack::top] means. *)
Theorem printCloseTag_succeeds_only (this : This) (buf : Buffer) :
  rt_of (printCloseTag IOCharset AppCharset top_success cltag0 this buf)
  = true ->
  (m_state this = TagElement \/ m_state this = Content)
  /\ m_state (this_of (printCloseTag IOCharset AppCharset top_success cltag0
                         this buf)) = Content
  /\ (forall rest, m_tagstack this <> [] :: rest).
Proof.
  intros R. split; [|split].
  - revert R. unfold XMLPrinterObject.printCloseTag.
    destruct (TagStack.top _ _) as [top_rt element].
    match goal with
    | |- context [orb top_rt ?e] => destruct (orb top_rt e)
    end; [discriminate|].
    destruct (m_state this); cbn; auto; discriminate.
  - revert R. unfold XMLPrinterObject.printCloseTag.
    destruct (TagStack.top _ _) as [top_rt element].
    match goal with
    | |- context [orb top_rt ?e] => destruct (orb top_rt e)
    end; [discriminate|].
    destruct (m_state this) eqn:E; cbn; try discriminate; auto.
  - intros rest S. revert R. unfold XMLPrinterObject.printCloseTag.
    rewrite S. cbn. rewrite orb_true_r. discriminate.
Qed.

(** X15: in state [Content], [printOpenTag] followed by [printValue] appends
    [<], the name, [>] and the value with content escaping (name and value
    up to their first NUL), leaves the name on the tag stack and the state
    [Content], and the [printValue] returns false. *)
Theorem open_value_writes_tag_and_content
    (this : This) (name src : CString) (buf : Buffer) :
  m_state this = Content ->
  let r1 := printOpenTag this name buf in
  printValue (this_of r1) src (buf_of r1)
  = (false,
     {| m_state := Content; m_buf := m_buf this;
        m_tagstack := name :: m_tagstack this;
        m_attributes := m_attributes this |},
     buf ++ emit "<" ++ encoded (before_NUL (decode name)) ++ emit ">"
         ++ escaped content_table (before_NUL (decode src))).
Proof.
  intros E. cbv zeta. rewrite printOpenTag_emits, exitTagContext_emits, E.
  unfold this_of, buf_of, XMLPrinterObject.printValue.
  cbn [fst snd m_state State_eqb].
  rewrite exitTagContext_emits. cbn [m_state].
  rewrite printToBufferContent_decoded, transcode_decoded.
  cbn. now rewrite <- !app_assoc.
Qed.

(** X16: in state [Content], [printOpenTag], [printAttribute] and
    [printValue] in a row append [<], the name, a space, the key, [=], a
    space and the value between double quotes with attribute-value escaping
    (all three up to their first NUL); the state is [TagElement] with the
    name on the tag stack and the [printValue] returns true. *)
Theorem open_attribute_value_writes_tag
    (this : This) (name key src : CString) (buf : Buffer) :
  m_state this = Content ->
  let r1 := printOpenTag this name buf in
  let r2 := printAttribute (this_of r1) key (buf_of r1) in
  printValue (this_of r2) src (buf_of r2)
  = (true,
     {| m_state := TagElement; m_buf := m_buf this;
        m_tagstack := name :: m_tagstack this;
        m_attributes := m_attributes this |},
     buf ++ emit "<" ++ encoded (before_NUL (decode name))
         ++ emit " " ++ encoded (before_NUL (decode key)) ++ emit "="
         ++ emit " " ++ emit DQUOTE
         ++ escaped attribute_value_table (before_NUL (decode src))
         ++ emit DQUOTE).
Proof.
  intros E. cbv zeta. rewrite printOpenTag_emits, exitTagContext_emits, E.
  unfold this_of, buf_of, XMLPrinterObject.printAttribute.
  cbn [fst snd m_state State_eqb].
  unfold XMLPrinterObject.printValue. cbn [fst snd m_state State_eqb set_state].
  rewrite printToBufferAttributeValue_decoded, printToBuffer_decoded,
    transcode_decoded, !printToBufferChar_emits.
  cbn. now rewrite <- !app_assoc.
Qed.

End Closing.

(** ** Printing and closing on the sample configurations *)

Section ClosingSamples.

Local Abbreviation L1 := charset.IsoLatin1.

Lemma printValue_emits_witness :
  ~ In 0%N (decode L1 (lit "1<2"))
  /\ (m_state in_attribute = TagAttribute
      /\ buf_of (printValue L1 L1 in_attribute (lit "1<2") (lit "<a k="))
         = lit "<a k= " ++ [DQUOTE] ++ lit "1&lt;2" ++ [DQUOTE]
      /\ this_of (printValue L1 L1 in_attribute (lit "1<2") (lit "<a k="))
         = set_state in_attribute TagElement)
  /\ (m_state opened = TagElement
      /\ buf_of (printValue L1 L1 opened (lit "1<2") (lit "<a"))
         = lit "<a>1&lt;2"
      /\ this_of (printValue L1 L1 opened (lit "1<2") (lit "<a"))
         = set_state opened Content)
  /\ (m_state in_content = Content
      /\ buf_of (printValue L1 L1 in_content (lit "1<2") (lit "<a>x"))
         = lit "<a>x1&lt;2"
      /\ this_of (printValue L1 L1 in_content (lit "1<2") (lit "<a>x"))
         = in_content).
Proof.
  assert (N : ~ In 0%N (decode L1 (lit "1<2"))).
  { vm_compute. intros I.
    repeat (destruct I as [I|I]; [discriminate I|]). exact I. }
  split; [exact N|]. split; [|split]; (split; [reflexivity|]).
  - apply (proj1 (@printValue_emits L1 L1 in_attribute (lit "1<2")
                    (lit "<a k=") N)).
    reflexivity.
  - apply (proj1 (proj2 (@printValue_emits L1 L1 opened (lit "1<2")
                           (lit "<a") N))).
    reflexivity.
  - apply (proj2 (proj2 (@printValue_emits L1 L1 in_content (lit "1<2")
                           (lit "<a>x") N))).
    reflexivity.
Defined.

(** C1 as stated fails: after [printOpenTag( "a")] and [printAttribute( "k")]
    the printer is in state [TagAttribute], and [printValue( "v")] appends a
    space before the quoted value. *)
Lemma printValue_attribute_leading_space :
  m_state in_attribute = TagAttribute
  /\ buf_of (printValue L1 L1 in_attribute (lit "v") [])
     = [" "; DQUOTE; "v"; DQUOTE]%char
  /\ buf_of (printValue L1 L1 in_attribute (lit "v") [])
     <> [DQUOTE; "v"; DQUOTE]%char.
Proof.
  split; [reflexivity|]. split; [reflexivity|].
  vm_compute. discriminate.
Qed.

Lemma printAttribute_emits_witness :
  (m_state opened = TagElement
   /\ printAttribute L1 L1 opened (lit "key") (lit "<a")
      = (true, set_state opened TagAttribute, lit "<a key="))
  /\
  (m_state in_content <> TagElement
   /\ printAttribute L1 L1 in_content (lit "key") (lit "<a>x")
      = (false, in_content, lit "<a>x")).
Proof.
  split; split.
  - reflexivity.
  - apply (proj1 (proj2 (printAttribute_emits L1 L1 opened (lit "key")
                           (lit "<a")))).
    reflexivity.
  - vm_compute. discriminate.
  - apply (proj2 (proj2 (printAttribute_emits L1 L1 in_content (lit "key")
                           (lit "<a>x")))).
    vm_compute. discriminate.
Defined.

(** C5 as stated fails: of the name [k NUL x], [printAttribute] in state
    [TagElement] writes the [k] only. *)
Lemma printAttribute_name_ends_at_NUL :
  m_state opened = TagElement
  /\ buf_of (printAttribute L1 L1 opened ["k"; NUL; "x"]%char []) = lit " k="
  /\ buf_of (printAttribute L1 L1 opened ["k"; NUL; "x"]%char [])
     <> [" "; "k"; NUL; "x"; "="]%char.
Proof.
  split; [reflexivity|]. split; [reflexivity|].
  vm_compute. discriminate.
Qed.

Lemma printCloseTag_fails_with_open_tag_witness :
  (m_tagstack opened <> []
   /\ printCloseTag L1 L1 true [] opened (lit "<a") = (false, opened, lit "<a"))
  /\
  (m_tagstack opened_unnamed = [] :: []
   /\ printCloseTag L1 L1 false [] opened_unnamed (lit "<")
      = (false, opened_unnamed, lit "<")).
Proof.
  assert (N : m_tagstack opened <> []) by (vm_compute; discriminate).
  split.
  - split; [exact N|].
    apply (proj1 (printCloseTag_fails_with_open_tag L1 L1 false []
                    opened (lit "<a")) N).
  - split; [reflexivity|].
    apply (proj2 (printCloseTag_fails_with_open_tag L1 L1 false []
                    opened_unnamed (lit "<")) []).
    reflexivity.
Defined.

(** The failing inputs of C4: after [printOpenTag( "a")], and after
    [printOpenTag] with the empty name, the printer is in state
    [TagElement] with one entry on the tag stack; [printCloseTag] returns
    false and writes nothing, in the first case if the result of [top] is
    true when there is a top, in the second case under either reading. *)
Example printCloseTag_fails_example :
  m_state opened = TagElement /\ m_tagstack opened = [lit "a"]
  /\ printCloseTag L1 L1 true [] opened (lit "<a") = (false, opened, lit "<a")
  /\ m_state opened_unnamed = TagElement /\ m_tagstack opened_unnamed = [ [] ]
  /\ printCloseTag L1 L1 true [] opened_unnamed (lit "<")
     = (false, opened_unnamed, lit "<")
  /\ printCloseTag L1 L1 false [] opened_unnamed (lit "<")
     = (false, opened_unnamed, lit "<").
Proof. repeat split. Qed.

Lemma printCloseTag_succeeds_only_witness :
  rt_of (printCloseTag L1 L1 false [] opened (lit "<a")) = true
  /\ (m_state opened = TagElement \/ m_state opened = Content)
  /\ m_state (this_of (printCloseTag L1 L1 false [] opened (lit "<a")))
     = Content
  /\ (forall rest, m_tagstack opened <> [] :: rest).
Proof.
  split; [reflexivity|].
  apply (@printCloseTag_succeeds_only L1 L1 false [] opened (lit "<a")).
  reflexivity.
Defined.

Lemma open_value_writes_tag_and_content_witness :
  m_state in_content = Content
  /\ (let r1 := printOpenTag L1 L1 in_content (lit "b") (lit "<a>x") in
      printValue L1 L1 (this_of r1) (lit "1<2") (buf_of r1)
      = (false,
         {| m_state := Content; m_buf := m_buf in_content;
            m_tagstack := lit "b" :: m_tagstack in_content;
            m_attributes := m_attributes in_content |},
         lit "<a>x<b>1&lt;2")).
Proof.
  split; [reflexivity|].
  apply (@open_value_writes_tag_and_content L1 L1 in_content (lit "b")
           (lit "1<2") (lit "<a>x")).
  reflexivity.
Defined.

Lemma open_attribute_value_writes_tag_witness :
  m_state in_content = Content
  /\ (let r1 := printOpenTag L1 L1 in_content (lit "b") (lit "<a>x") in
      let r2 := printAttribute L1 L1 (this_of r1) (lit "k") (buf_of r1) in
      printValue L1 L1 (this_of r2) (lit "1<2") (buf_of r2)
      = (true,
         {| m_state := TagElement; m_buf := m_buf in_content;
            m_tagstack := lit "b" :: m_tagstack in_content;
            m_attributes := m_attributes in_content |},
         lit "<a>x<b k= " ++ [DQUOTE] ++ lit "1&lt;2" ++ [DQUOTE])).
Proof.
  split; [reflexivity|].
  apply (@open_attribute_value_writes_tag L1 L1 in_content (lit "b")
           (lit "k") (lit "1<2") (lit "<a>x")).
  reflexivity.
Defined.

End ClosingSamples.
